(** * LumixEngine editor client: wire format and message dispatch

    A shallow embedding of [src/editor/editor_client.cpp]: the command
    emitter ([EditorClient::lookAtSelected] ... [requestProperties]), the
    framing done by [EditorClientImpl::sendMessage], and the inbound
    dispatcher [EditorClientImpl::onMessage].

    The translation unit only includes the headers of its collaborators
    ([core/blob.h], [core/crc32.h], [core/path.h], the delegate list, the two
    message-type enumerations and the event structures).  Each of them is
    modelled below under a comment that says where the model comes from. *)

From Stdlib Require Import QArith.
From Stdlib Require Import Strings.String Strings.Ascii Strings.Byte.
From Stdlib Require Import ZArith List Bool Lia.
Import ListNotations.

Open Scope Z_scope.

(* ################################################################# *)
(** * Part I: the model *)

(* ================================================================= *)
(** ** Bytes and fixed-width integers *)

Module Wire.

(** The low eight bits of an integer, as one byte of memory. *)
Definition byte_of_Z (z : Z) : byte :=
  match Byte.of_N (Z.to_N (z mod 256)) with
  | Some b => b
  | None => x00
  end.

Definition Z_of_byte (b : byte) : Z := Z.of_N (Byte.to_N b).

(** [uint32_t] and [int32_t] are 32-bit words; a C integer conversion keeps
    the low 32 bits, the signed reading is two's complement. *)
Definition UINT32_MOD : Z := 2 ^ 32.
Definition INT32_MAX : Z := 2 ^ 31 - 1.

Definition to_uint32 (z : Z) : Z := z mod UINT32_MOD.

Definition to_int32 (z : Z) : Z :=
  let w := z mod UINT32_MOD in
  if w <=? INT32_MAX then w else w - UINT32_MOD.

(** The object representation of an integer: [n] bytes, least significant
    byte first. *)
Fixpoint le_bytes (n : nat) (z : Z) : list byte :=
  match n with
  | O => []
  | S n' => byte_of_Z z :: le_bytes n' (Z.shiftr z 8)
  end.

Fixpoint le_value (bs : list byte) : Z :=
  match bs with
  | [] => 0
  | b :: bs' => Z_of_byte b + Z.shiftl (le_value bs') 8
  end.

(** The source copies integers and floats to the stream with their
    in-memory representation ([stream.write(&type, sizeof(type))]), so the
    byte order on the wire is the host's.  Both orders are modelled. *)
Inductive Endian : Set := LittleEndian | BigEndian.

Definition object_bytes (host : Endian) (n : nat) (z : Z) : list byte :=
  match host with
  | LittleEndian => le_bytes n z
  | BigEndian => rev (le_bytes n z)
  end.

Definition object_value (host : Endian) (bs : list byte) : Z :=
  match host with
  | LittleEndian => le_value bs
  | BigEndian => le_value (rev bs)
  end.

(** [sizeof(uint32_t) = sizeof(int32_t) = sizeof(int) = sizeof(float) = 4]. *)
Definition word_bytes (host : Endian) (z : Z) : list byte :=
  object_bytes host 4 z.

Definition uint32_of_bytes (host : Endian) (bs : list byte) : Z :=
  object_value host bs.

Definition int32_of_bytes (host : Endian) (bs : list byte) : Z :=
  to_int32 (object_value host bs).

End Wire.

(* ================================================================= *)
(** ** Name hashing *)

Module Crc.
Import Wire.

(** Modelled from the spec: [crc32] of [core/crc32.h] is not part of the
    translation unit.  The spec calls it "a standard CRC-32 checksum over the
    UTF-8/ASCII bytes of the name": the reflected polynomial [0xEDB88320],
    initial value and final complement [0xFFFFFFFF], one bit at a time. *)
Definition POLYNOMIAL : Z := 0xEDB88320.
Definition ALL_ONES : Z := 0xFFFFFFFF.

Definition crc_bit (c : Z) : Z :=
  if Z.testbit c 0 then Z.lxor (Z.shiftr c 1) POLYNOMIAL else Z.shiftr c 1.

Definition crc_byte (c : Z) (b : byte) : Z :=
  Nat.iter 8 crc_bit (Z.lxor c (Z_of_byte b)).

Definition crc32_bytes (bs : list byte) : Z :=
  Z.lxor (fold_left crc_byte bs ALL_ONES) ALL_ONES.

Definition crc32 (name : string) : Z :=
  crc32_bytes (list_byte_of_string name).

(** The values of a [uint32_t]. *)
Definition is_uint32 (z : Z) : Prop := 0 <= z < 2 ^ 32.

End Crc.

(* ================================================================= *)
(** ** Outcomes of a call *)

(** The C++ functions return [void] and report no error; what the model has
    to distinguish is a call that runs to completion from one whose behaviour
    is undefined.  There are two ways into undefined behaviour in this
    translation unit: dereferencing the null [m_impl], and copying bytes from
    outside the object a pointer designates (a read past the end of a
    buffer).  [Undefined] is not an error the code returns: it says that the
    C++ standard promises nothing about the call. *)
Inductive fault : Set :=
| NullDereference
| ReadOutsideObject.

Inductive outcome (A : Type) : Type :=
| Done (a : A)
| Undefined (f : fault).

Arguments Done {A} a.
Arguments Undefined {A} f.

Definition bind {A B : Type} (c : outcome A) (k : A -> outcome B) : outcome B :=
  match c with
  | Done a => k a
  | Undefined f => Undefined f
  end.

Notation "x <- c ;; k" := (bind c (fun x => k))
  (at level 61, c at next level, right associativity).
Notation "' p <- c ;; k" := (bind c (fun x => let p := x in k))
  (at level 61, p pattern, c at next level, right associativity).

(* ================================================================= *)
(** ** The byte stream *)

Module Blob.
Import Wire.

(** Modelled from the spec: the class [Blob] of [core/blob.h] is not part of
    the translation unit.  The spec's Wire Codec: "[write] appends raw bytes
    to a growable buffer, advancing a write cursor; [read] copies bytes from
    a read cursor into a destination of known static size, advancing the read
    cursor; [create(data, size)] initializes a read-only view over externally
    supplied bytes; [clear()] resets a write buffer to empty while retaining
    capacity.  No bounds-checking contract is assumed beyond caller
    guarantees sufficient bytes remain".  A copy whose source does not hold
    the requested number of bytes is therefore not checked: it reads outside
    the source, which is [Undefined ReadOutsideObject] here. *)
Record t : Type := mk {
  m_buffer : list byte;      (* bytes written so far *)
  m_capacity : nat;          (* storage kept by the write buffer *)
  m_data : list byte;        (* the external bytes a view reads *)
  m_pos : nat                (* read cursor *)
}.

(** [Blob stream;] *)
Definition empty : t :=
  {| m_buffer := []; m_capacity := 0; m_data := []; m_pos := 0 |}.

(** [stream.create(data, size)] *)
Definition create (data : list byte) (b : t) : t :=
  {| m_buffer := m_buffer b; m_capacity := m_capacity b;
     m_data := data; m_pos := 0 |}.

(** The stream after [bytes] were appended to its buffer, which grows when
    its capacity is exceeded. *)
Definition append (bytes : list byte) (b : t) : t :=
  let buffer := m_buffer b ++ bytes in
  {| m_buffer := buffer;
     m_capacity := Nat.max (m_capacity b) (length buffer);
     m_data := m_data b; m_pos := m_pos b |}.

(** [stream.write(src, size)]: [src] is the object the pointer designates,
    of which the first [size] bytes are copied. *)
Definition write (src : list byte) (size : Z) (b : t) : outcome t :=
  if (0 <=? size) && (size <=? Z.of_nat (length src)) then
    Done (append (firstn (Z.to_nat size) src) b)
  else Undefined ReadOutsideObject.

(** [stream.read(dst, size)]: the next [size] bytes of the view. *)
Definition read (size : nat) (b : t) : outcome (list byte * t) :=
  if (m_pos b + size <=? length (m_data b))%nat then
    Done (firstn size (skipn (m_pos b) (m_data b)),
          {| m_buffer := m_buffer b; m_capacity := m_capacity b;
             m_data := m_data b; m_pos := (m_pos b + size)%nat |})
  else Undefined ReadOutsideObject.

(** [stream.read(value)] for an [int32_t] destination. *)
Definition read_int32 (host : Endian) (b : t) : outcome (Z * t) :=
  '(bytes, b') <- read 4 b ;;
  Done (int32_of_bytes host bytes, b').

(** [stream.clearBuffer()] *)
Definition clearBuffer (b : t) : t :=
  {| m_buffer := []; m_capacity := m_capacity b;
     m_data := m_data b; m_pos := m_pos b |}.

Definition getBuffer (b : t) : list byte := m_buffer b.
Definition getBufferSize (b : t) : Z := Z.of_nat (length (m_buffer b)).

End Blob.

(* ================================================================= *)
(** ** What the translation unit takes from its headers *)

(** The enumerators of [ClientMessageType] and [ServerMessageType] that the
    source names.  Their numeric values are declared in
    [editor/client_message_types.h] and [editor/server_message_types.h],
    which are not part of the translation unit: the numbering is a field of
    [Platform]. *)
Inductive ClientMessageType : Set :=
| LOOK_AT_SELECTED | ADD_COMPONENT | TOGGLE_GAME_MODE | ADD_ENTITY
| POINTER_DOWN | POINTER_UP | POINTER_MOVE | LOAD | SET_WIREFRAME
| NEW_UNIVERSE | SET_ANIMABLE_TIME | PLAY_PAUSE_ANIMABLE | SET_POSITION
| SAVE | MOVE_CAMERA | PROPERTY_SET | GET_PROPERTIES.

Inductive ServerMessageType : Set :=
| ENTITY_POSITION | ENTITY_SELECTED | PROPERTY_LIST | LOG_MESSAGE.

(** The host: its byte order and the values of the enumerators.  The four
    [case] labels of the [switch] in [onMessage] are distinct [int]
    constants (a C++ compiler rejects duplicate labels). *)
Class Platform : Type := {
  host : Wire.Endian;
  client_code : ClientMessageType -> Z;
  server_code : ServerMessageType -> Z;
  server_code_int : forall k, - 2 ^ 31 <= server_code k <= Wire.INT32_MAX;
  server_code_inj : forall j k, server_code j = server_code k -> j = k
}.

(** The collaborators: everything outside the client that a call can reach.
    [Env] is the state of the rest of the process (the editor server and
    whatever the registered listeners act on); [server_onMessage] is
    [EditorServer::onMessage(data, size)]; the four event structures and
    their [read(Blob&)] members come from [editor/server_message_types.h].
    A reader either returns the event it built with the stream behind it, or
    reads outside the message.  Neither the server nor a listener is handed
    the state of the client itself. *)
Class Collaborators : Type := {
  Env : Type;
  server_onMessage : list byte -> Env -> Env;
  EntityPositionEvent : Type;
  EntitySelectedEvent : Type;
  PropertyListEvent : Type;
  LogEvent : Type;
  read_EntityPositionEvent : Blob.t -> outcome (EntityPositionEvent * Blob.t);
  read_EntitySelectedEvent : Blob.t -> outcome (EntitySelectedEvent * Blob.t);
  read_PropertyListEvent : Blob.t -> outcome (PropertyListEvent * Blob.t);
  read_LogEvent : Blob.t -> outcome (LogEvent * Blob.t)
}.

(** Modelled from the spec: [Path] of [core/path.h] is not part of the
    translation unit.  The spec speaks of "a locally cached current universe
    path string": a [Path] holds the string it was assigned, [c_str()] gives
    it back, and a default-constructed [Path] is empty. *)
Definition Path : Type := string.

(** A [const char*] argument is modelled by the characters before its
    terminator; the object it points to is those characters followed by the
    terminating zero byte. *)
Definition c_str_object (s : string) : list byte :=
  list_byte_of_string s ++ [x00].

Definition strlen (s : string) : Z := Z.of_nat (String.length s).

(** Modelled from the spec: [Vec3] is not declared in the translation unit.
    The spec's table gives a position as "3x4-byte floating point".  A
    [float] is kept as its 32-bit object representation: the emitter only
    copies floats, it never computes with them. *)
Definition float32 : Type := Z.

Record Vec3 : Type := { x : float32; y : float32; z : float32 }.

Definition Vec3_bytes (h : Wire.Endian) (v : Vec3) : list byte :=
  Wire.word_bytes h (x v) ++ Wire.word_bytes h (y v) ++ Wire.word_bytes h (z v).

(** The number an IEEE 754 binary32 pattern stands for ([None] for
    infinities and NaNs), used to read examples such as [1.0]. *)
Definition float32_value (bits : float32) : option Q :=
  let negative := Z.testbit bits 31 in
  let e := Z.land (Z.shiftr bits 23) 0xFF in
  let m := Z.land bits 0x7FFFFF in
  if e =? 255 then None
  else
    let magnitude :=
      if e =? 0 then Qmult (inject_Z m) (Qpower (2 # 1) (-149))
      else Qmult (inject_Z (0x800000 + m)) (Qpower (2 # 1) (e - 150)) in
    Some (Qred (if negative then Qopp magnitude else magnitude)).

(* ================================================================= *)
(** ** The editor client *)

Section Client.

Context {platform : Platform} {collaborators : Collaborators}.

Import Wire.

(** *** Delegate lists *)

(** Modelled from the spec: [DelegateList] is not part of the translation
    unit.  The spec's Subscription Registry: "one append-only,
    order-preserving list of listeners per event kind"; "[subscribe]
    appends to that kind's ordered list"; "[invoke(event)] calls every
    currently-registered listener for that kind with the same event
    instance".  A listener receives the event by non-const reference
    ([void(EntitySelectedEvent&)]), so it may change it, and the next
    listener sees the change.  Listeners act on [Env]; a listener that calls
    back into the client it is registered with is outside the model (the
    spec excludes re-entrant use). *)
Definition Delegate (E : Type) : Type := E -> Env -> E * Env.

Definition DelegateList (E : Type) : Type := list (Delegate E).

Definition DelegateList_bind {E : Type} (d : Delegate E) (l : DelegateList E)
  : DelegateList E := l ++ [d].

Fixpoint invoke {E : Type} (l : DelegateList E) (msg : E) (env : Env) : E * Env :=
  match l with
  | [] => (msg, env)
  | d :: l' => let '(msg', env') := d msg env in invoke l' msg' env'
  end.

(** *** State *)

Record EditorClientImpl : Type := {
  m_base_path : Path;
  m_universe_path : Path;
  m_entity_position_changed : DelegateList EntityPositionEvent;
  m_entity_selected : DelegateList EntitySelectedEvent;
  m_message_logged : DelegateList LogEvent;
  m_property_list_received : DelegateList PropertyListEvent
}.

(** The process as far as the client is concerned: the [m_impl] pointer of
    the [EditorClient] ([None] is [NULL]), the function-local
    [static Blob stream] of [setComponentProperty], and the environment
    (which holds the server that [m_server] refers to). *)
Record State : Type := {
  m_impl : option EditorClientImpl;
  property_stream : Blob.t;
  env : Env
}.

Definition with_env (s : State) (e : Env) : State :=
  {| m_impl := m_impl s; property_stream := property_stream s; env := e |}.

Definition with_impl (s : State) (i : option EditorClientImpl) : State :=
  {| m_impl := i; property_stream := property_stream s; env := env s |}.

Definition set_universe_path (p : Path) (i : EditorClientImpl) : EditorClientImpl :=
  {| m_base_path := m_base_path i;
     m_universe_path := p;
     m_entity_position_changed := m_entity_position_changed i;
     m_entity_selected := m_entity_selected i;
     m_message_logged := m_message_logged i;
     m_property_list_received := m_property_list_received i |}.

(** [m_impl->...]: dereferencing a null [m_impl] is undefined. *)
Definition deref (s : State) : outcome EditorClientImpl :=
  match m_impl s with
  | Some i => Done i
  | None => Undefined NullDereference
  end.

(** *** Construction and destruction *)

(** [EditorClient::create] *)
Definition create (base_path : string) (s : State) : State * bool :=
  (with_impl s
     (Some {| m_base_path := base_path;
              m_universe_path := EmptyString;
              m_entity_position_changed := [];
              m_entity_selected := [];
              m_message_logged := [];
              m_property_list_received := [] |}),
   true).

(** [EditorClient::destroy] *)
Definition destroy (s : State) : State :=
  match m_impl s with
  | Some _ => with_impl s None
  | None => s
  end.

(** *** Inbound dispatch *)

(** [EditorClientImpl::onMessage].  The [switch] over four distinct labels
    is the chain of comparisons below. *)
Definition Impl_onMessage (i : EditorClientImpl) (data : list byte) (e : Env)
  : outcome Env :=
  let stream := Blob.create data Blob.empty in
  '(message_type, stream) <- Blob.read_int32 host stream ;;
  if message_type =? server_code ENTITY_POSITION then
    '(msg, stream) <- read_EntityPositionEvent stream ;;
    Done (snd (invoke (m_entity_position_changed i) msg e))
  else if message_type =? server_code ENTITY_SELECTED then
    '(msg, stream) <- read_EntitySelectedEvent stream ;;
    Done (snd (invoke (m_entity_selected i) msg e))
  else if message_type =? server_code PROPERTY_LIST then
    '(msg, stream) <- read_PropertyListEvent stream ;;
    Done (snd (invoke (m_property_list_received i) msg e))
  else if message_type =? server_code LOG_MESSAGE then
    '(msg, stream) <- read_LogEvent stream ;;
    Done (snd (invoke (m_message_logged i) msg e))
  else Done e.

(** [EditorClient::onMessage]: [data] holds the [size] bytes of the call. *)
Definition onMessage (data : list byte) (s : State) : outcome State :=
  match m_impl s with
  | Some i => e <- Impl_onMessage i data (env s) ;; Done (with_env s e)
  | None => Done s
  end.

(** [propertyListReceived()], [entitySelected()] and
    [entityPositionReceived()] hand out a reference to the list; binding a
    listener through that reference appends it. *)
Definition set_delegates
  (ep : DelegateList EntityPositionEvent) (es : DelegateList EntitySelectedEvent)
  (lg : DelegateList LogEvent) (pl : DelegateList PropertyListEvent)
  (i : EditorClientImpl) : EditorClientImpl :=
  {| m_base_path := m_base_path i;
     m_universe_path := m_universe_path i;
     m_entity_position_changed := ep;
     m_entity_selected := es;
     m_message_logged := lg;
     m_property_list_received := pl |}.

Definition propertyListReceived_bind (d : Delegate PropertyListEvent) (s : State)
  : outcome State :=
  i <- deref s ;;
  Done (with_impl s (Some
    (set_delegates (m_entity_position_changed i) (m_entity_selected i)
       (m_message_logged i) (DelegateList_bind d (m_property_list_received i)) i))).

Definition entitySelected_bind (d : Delegate EntitySelectedEvent) (s : State)
  : outcome State :=
  i <- deref s ;;
  Done (with_impl s (Some
    (set_delegates (m_entity_position_changed i)
       (DelegateList_bind d (m_entity_selected i))
       (m_message_logged i) (m_property_list_received i) i))).

Definition entityPositionReceived_bind (d : Delegate EntityPositionEvent) (s : State)
  : outcome State :=
  i <- deref s ;;
  Done (with_impl s (Some
    (set_delegates (DelegateList_bind d (m_entity_position_changed i))
       (m_entity_selected i) (m_message_logged i) (m_property_list_received i) i))).

(** *** Outbound framing *)

(** [EditorClientImpl::sendMessage]: [data] is [None] for a null pointer,
    otherwise the object it points to. *)
Definition sendMessage (type : Z) (data : option (list byte)) (size : Z) (e : Env)
  : outcome Env :=
  let type := to_uint32 type in
  let size := to_int32 size in
  let stream := Blob.empty in
  stream <- Blob.write (word_bytes host type) 4 stream ;;
  stream <- match data with
            | Some src => Blob.write src size stream
            | None => Done stream
            end ;;
  Done (server_onMessage (Blob.getBuffer stream) e).

(** [m_impl->sendMessage(type, data, size)] as the emitter functions call it. *)
Definition impl_sendMessage (type : ClientMessageType) (data : option (list byte))
  (size : Z) (s : State) : outcome State :=
  _ <- deref s ;;
  e <- sendMessage (client_code type) data size (env s) ;;
  Done (with_env s e).

(** *** The emitter *)

Definition getBasePath (s : State) : outcome string :=
  i <- deref s ;; Done (m_base_path i).

Definition getUniversePath (s : State) : outcome string :=
  i <- deref s ;; Done (m_universe_path i).

Definition lookAtSelected (s : State) : outcome State :=
  impl_sendMessage LOOK_AT_SELECTED None 0 s.

Definition addComponent (type : Z) (s : State) : outcome State :=
  impl_sendMessage ADD_COMPONENT (Some (word_bytes host type)) 4 s.

Definition toggleGameMode (s : State) : outcome State :=
  impl_sendMessage TOGGLE_GAME_MODE None 0 s.

Definition addEntity (s : State) : outcome State :=
  impl_sendMessage ADD_ENTITY None 0 s.

Definition mouseDown (x y button : Z) (s : State) : outcome State :=
  let data := word_bytes host x ++ word_bytes host y ++ word_bytes host button in
  impl_sendMessage POINTER_DOWN (Some data) 12 s.

Definition mouseUp (x y button : Z) (s : State) : outcome State :=
  let data := word_bytes host x ++ word_bytes host y ++ word_bytes host button in
  impl_sendMessage POINTER_UP (Some data) 12 s.

Definition mouseMove (x y dx dy flags : Z) (s : State) : outcome State :=
  let data := word_bytes host x ++ word_bytes host y ++ word_bytes host dx
              ++ word_bytes host dy ++ word_bytes host flags in
  impl_sendMessage POINTER_MOVE (Some data) 20 s.

Definition loadUniverse (path : string) (s : State) : outcome State :=
  i <- deref s ;;
  let s := with_impl s (Some (set_universe_path path i)) in
  impl_sendMessage LOAD (Some (c_str_object path)) (to_int32 (strlen path) + 1) s.

Definition setWireframe (is_wireframe : bool) (s : State) : outcome State :=
  let data := if is_wireframe then 1 else 0 in
  impl_sendMessage SET_WIREFRAME (Some (word_bytes host data)) 4 s.

Definition newUniverse (s : State) : outcome State :=
  i <- deref s ;;
  let s := with_impl s (Some (set_universe_path EmptyString i)) in
  impl_sendMessage NEW_UNIVERSE None 0 s.

Definition setAnimableTime (time : Z) (s : State) : outcome State :=
  impl_sendMessage SET_ANIMABLE_TIME (Some (word_bytes host time)) 4 s.

Definition playPausePreviewAnimable (s : State) : outcome State :=
  impl_sendMessage PLAY_PAUSE_ANIMABLE None 0 s.

Definition setEntityPosition (entity : Z) (position : Vec3) (s : State)
  : outcome State :=
  let data := word_bytes host entity ++ Vec3_bytes host position in
  impl_sendMessage SET_POSITION (Some data) (4 + 12) s.

Definition saveUniverse (path : string) (s : State) : outcome State :=
  i <- deref s ;;
  let s := with_impl s (Some (set_universe_path path i)) in
  impl_sendMessage SAVE (Some (c_str_object path)) (to_int32 (strlen path) + 1) s.

Definition navigate (forward right speed : float32) (s : State) : outcome State :=
  let data := word_bytes host forward ++ word_bytes host right
              ++ word_bytes host speed in
  impl_sendMessage MOVE_CAMERA (Some data) 12 s.

(** [value] is the object the [const void*] points to, [len] the
    [int32_t length] argument. *)
Definition setComponentProperty (component property : string)
  (value : list byte) (len : Z) (s : State) : outcome State :=
  let len := to_int32 len in
  let stream := Blob.clearBuffer (property_stream s) in
  let tmp := to_uint32 (Crc.crc32 component) in
  stream <- Blob.write (word_bytes host tmp) 4 stream ;;
  let tmp := to_uint32 (Crc.crc32 property) in
  stream <- Blob.write (word_bytes host tmp) 4 stream ;;
  stream <- Blob.write (word_bytes host len) 4 stream ;;
  stream <- Blob.write value len stream ;;
  let s := {| m_impl := m_impl s; property_stream := stream; env := env s |} in
  impl_sendMessage PROPERTY_SET (Some (Blob.getBuffer stream))
    (Blob.getBufferSize stream) s.

Definition requestProperties (type_crc : Z) (s : State) : outcome State :=
  impl_sendMessage GET_PROPERTIES (Some (word_bytes host type_crc)) 4 s.

End Client.

(* ================================================================= *)
(** ** Commands *)

(** One constructor per emitter function, with its arguments. *)
Inductive Command : Type :=
| LookAtSelected
| AddComponent (type : Z)
| ToggleGameMode
| AddEntity
| MouseDown (x y button : Z)
| MouseUp (x y button : Z)
| MouseMove (x y dx dy flags : Z)
| LoadUniverse (path : string)
| SetWireframe (is_wireframe : bool)
| NewUniverse
| SetAnimableTime (time : Z)
| PlayPausePreviewAnimable
| SetEntityPosition (entity : Z) (position : Vec3)
| SaveUniverse (path : string)
| Navigate (forward right speed : float32)
| SetComponentProperty (component property : string) (value : list byte) (len : Z)
| RequestProperties (type_crc : Z).

Section Commands.

Context {platform : Platform} {collaborators : Collaborators}.

Import Wire.

(** Calling the emitter function a command stands for. *)
Definition issue (c : Command) (s : State) : outcome State :=
  match c with
  | LookAtSelected => lookAtSelected s
  | AddComponent type => addComponent type s
  | ToggleGameMode => toggleGameMode s
  | AddEntity => addEntity s
  | MouseDown x y button => mouseDown x y button s
  | MouseUp x y button => mouseUp x y button s
  | MouseMove x y dx dy flags => mouseMove x y dx dy flags s
  | LoadUniverse path => loadUniverse path s
  | SetWireframe b => setWireframe b s
  | NewUniverse => newUniverse s
  | SetAnimableTime time => setAnimableTime time s
  | PlayPausePreviewAnimable => playPausePreviewAnimable s
  | SetEntityPosition entity position => setEntityPosition entity position s
  | SaveUniverse path => saveUniverse path s
  | Navigate forward rightward speed => navigate forward rightward speed s
  | SetComponentProperty component property value len =>
      setComponentProperty component property value len s
  | RequestProperties type_crc => requestProperties type_crc s
  end.

Fixpoint issue_all (cs : list Command) (s : State) : outcome State :=
  match cs with
  | [] => Done s
  | c :: cs' => s' <- issue c s ;; issue_all cs' s'
  end.

(** The command table of the spec (section 4.2): the tag of each command
    and the payload the table describes.  These two definitions follow the
    spec; [issue] above follows the source. *)
Definition table_tag (c : Command) : ClientMessageType :=
  match c with
  | LookAtSelected => LOOK_AT_SELECTED
  | AddComponent _ => ADD_COMPONENT
  | ToggleGameMode => TOGGLE_GAME_MODE
  | AddEntity => ADD_ENTITY
  | MouseDown _ _ _ => POINTER_DOWN
  | MouseUp _ _ _ => POINTER_UP
  | MouseMove _ _ _ _ _ => POINTER_MOVE
  | LoadUniverse _ => LOAD
  | SetWireframe _ => SET_WIREFRAME
  | NewUniverse => NEW_UNIVERSE
  | SetAnimableTime _ => SET_ANIMABLE_TIME
  | PlayPausePreviewAnimable => PLAY_PAUSE_ANIMABLE
  | SetEntityPosition _ _ => SET_POSITION
  | SaveUniverse _ => SAVE
  | Navigate _ _ _ => MOVE_CAMERA
  | SetComponentProperty _ _ _ _ => PROPERTY_SET
  | RequestProperties _ => GET_PROPERTIES
  end.

Definition table_payload (c : Command) : list byte :=
  match c with
  | LookAtSelected | ToggleGameMode | AddEntity | NewUniverse
  | PlayPausePreviewAnimable => []
  | AddComponent type => word_bytes host type
  | MouseDown x y button | MouseUp x y button =>
      word_bytes host x ++ word_bytes host y ++ word_bytes host button
  | MouseMove x y dx dy flags =>
      word_bytes host x ++ word_bytes host y ++ word_bytes host dx
      ++ word_bytes host dy ++ word_bytes host flags
  | LoadUniverse path | SaveUniverse path =>
      list_byte_of_string path ++ [x00]
  | SetWireframe b => word_bytes host (if b then 1 else 0)
  | SetAnimableTime time => word_bytes host time
  | SetEntityPosition entity position =>
      word_bytes host entity ++ word_bytes host (x position)
      ++ word_bytes host (y position) ++ word_bytes host (z position)
  | Navigate forward rightward speed =>
      word_bytes host forward ++ word_bytes host rightward ++ word_bytes host speed
  | SetComponentProperty component property value len =>
      word_bytes host (Crc.crc32 component) ++ word_bytes host (Crc.crc32 property)
      ++ word_bytes host len ++ firstn (Z.to_nat len) value
  | RequestProperties type_crc => word_bytes host type_crc
  end.

Definition no_payload (c : Command) : bool :=
  match c with
  | LookAtSelected | ToggleGameMode | AddEntity | NewUniverse
  | PlayPausePreviewAnimable => true
  | _ => false
  end.

(** What a caller owes the emitter: a path whose length with terminator fits
    the [int32_t] size of [sendMessage]; a property value that holds the
    [length] bytes it announces, short enough for the framed size to fit. *)
Definition arguments_ok (c : Command) : Prop :=
  match c with
  | LoadUniverse path | SaveUniverse path => strlen path + 1 <= INT32_MAX
  | SetComponentProperty _ _ value len =>
      0 <= len <= Z.of_nat (length value) /\ 12 + len <= INT32_MAX
  | _ => True
  end.

Definition framed (c : Command) : list byte :=
  word_bytes host (client_code (table_tag c)) ++ table_payload c.

(** What a command leaves in the implementation object and in the static
    stream of [setComponentProperty]. *)
Definition impl_after (c : Command) (i : EditorClientImpl) : EditorClientImpl :=
  match c with
  | LoadUniverse path | SaveUniverse path => set_universe_path path i
  | NewUniverse => set_universe_path EmptyString i
  | _ => i
  end.

Definition stream_after (c : Command) (b : Blob.t) : Blob.t :=
  match c with
  | SetComponentProperty _ _ _ _ =>
      Blob.append (table_payload c) (Blob.clearBuffer b)
  | _ => b
  end.

End Commands.

(* ================================================================= *)
(** ** Notions used to state the properties *)

Section Notions.

Context {platform : Platform} {collaborators : Collaborators}.

Import Wire.

(** The event structure, the reader and the delegate list that go with each
    tag, as the four [case] blocks of [onMessage] pair them. *)
Definition Event (k : ServerMessageType) : Type :=
  match k with
  | ENTITY_POSITION => EntityPositionEvent
  | ENTITY_SELECTED => EntitySelectedEvent
  | PROPERTY_LIST => PropertyListEvent
  | LOG_MESSAGE => LogEvent
  end.

Definition read_event (k : ServerMessageType)
  : Blob.t -> outcome (Event k * Blob.t) :=
  match k with
  | ENTITY_POSITION => read_EntityPositionEvent
  | ENTITY_SELECTED => read_EntitySelectedEvent
  | PROPERTY_LIST => read_PropertyListEvent
  | LOG_MESSAGE => read_LogEvent
  end.

Definition delegates (k : ServerMessageType) (i : EditorClientImpl)
  : DelegateList (Event k) :=
  match k with
  | ENTITY_POSITION => m_entity_position_changed i
  | ENTITY_SELECTED => m_entity_selected i
  | PROPERTY_LIST => m_property_list_received i
  | LOG_MESSAGE => m_message_logged i
  end.

(** The tag a message carries, and the stream as the reader of the payload
    finds it: a view of the whole message with the cursor behind the tag. *)
Definition tag_of (data : list byte) : Z :=
  int32_of_bytes host (firstn 4 data).

Definition payload_view (data : list byte) : Blob.t :=
  {| Blob.m_buffer := []; Blob.m_capacity := 0;
     Blob.m_data := data; Blob.m_pos := 4 |}.

Definition recognized (tag : Z) : Prop :=
  exists k, tag = server_code k.

(** The two ways of writing "call the listeners one after the other on the
    same event object". *)
Definition call {E : Type} (st : E * Env) (d : Delegate E) : E * Env :=
  d (fst st) (snd st).

(** What the spec asks of a message that is shorter than its layout: the
    call stays within the message and completes, and no listener has run
    (the environment, on which listeners act, is as before). *)
Definition rejected_without_effect
  (data : list byte) (s : State) : Prop :=
  exists s' : State, onMessage data s = Done s' /\ env s' = env s.

(** What the spec asks of every call, short messages included: it
    completes, and the implementation object, which holds the four listener
    lists, the universe path and the base path, is as before. *)
Definition completes_with_registry_intact
  (data : list byte) (s : State) : Prop :=
  exists s' : State, onMessage data s = Done s' /\ m_impl s' = m_impl s.

End Notions.

(** A run of [write] calls on one stream, and the bytes the stream holds
    after it. *)
Fixpoint write_all (chunks : list (list byte * Z)) (b : Blob.t) : outcome Blob.t :=
  match chunks with
  | [] => Done b
  | (src, size) :: chunks' => b' <- Blob.write src size b ;; write_all chunks' b'
  end.

Definition written (o : outcome Blob.t) : outcome (list byte) :=
  b <- o ;; Done (Blob.getBuffer b).

(** The payload of the spec's scenario: entity 7 at (1.0, 2.0, 3.0). *)
Definition scenario_position : Vec3 :=
  {| x := 0x3F800000; y := 0x40000000; z := 0x40400000 |}.

(* ================================================================= *)
(** ** Sessions: the operations of the translation unit, in sequence *)

Section Sessions.

Context {platform : Platform} {collaborators : Collaborators}.

Import Wire.

(** Everything a user of [EditorClient] can do through this translation
    unit: create and destroy the client, hand it an inbound message, issue
    a command, and bind a listener through one of the three accessors. *)
Inductive Operation : Type :=
| Create (base_path : string)
| Destroy
| Receive (data : list byte)
| Issue (c : Command)
| BindPropertyList (d : Delegate PropertyListEvent)
| BindEntitySelected (d : Delegate EntitySelectedEvent)
| BindEntityPosition (d : Delegate EntityPositionEvent).

Definition perform (o : Operation) (s : State) : outcome State :=
  match o with
  | Create base_path => Done (fst (create base_path s))
  | Destroy => Done (destroy s)
  | Receive data => onMessage data s
  | Issue c => issue c s
  | BindPropertyList d => propertyListReceived_bind d s
  | BindEntitySelected d => entitySelected_bind d s
  | BindEntityPosition d => entityPositionReceived_bind d s
  end.

Fixpoint perform_all (os : list Operation) (s : State) : outcome State :=
  match os with
  | [] => Done s
  | o :: os' => s' <- perform o s ;; perform_all os' s'
  end.

(** Operations other than [create] and [destroy]; and among them the ones
    that only move messages. *)
Definition keeps_client (o : Operation) : bool :=
  match o with
  | Create _ | Destroy => false
  | _ => true
  end.

Definition is_traffic (o : Operation) : bool :=
  match o with
  | Receive _ | Issue _ => true
  | _ => false
  end.

(** The accessor through which listeners of an event are bound.  The
    translation unit defines [propertyListReceived], [entitySelected] and
    [entityPositionReceived]; it defines none for [m_message_logged]. *)
Definition accessor_bind (k : ServerMessageType)
  : option (Delegate (Event k) -> State -> outcome State) :=
  match k with
  | ENTITY_POSITION => Some entityPositionReceived_bind
  | ENTITY_SELECTED => Some entitySelected_bind
  | PROPERTY_LIST => Some propertyListReceived_bind
  | LOG_MESSAGE => None
  end.

(** A client, if there is one, whose list of log listeners is empty. *)
Definition no_log_listener (s : State) : Prop :=
  match m_impl s with
  | Some i => m_message_logged i = []
  | None => True
  end.

(** What the server has been handed after the commands [cs], first to
    last. *)
Definition transport (cs : list Command) (e : Env) : Env :=
  fold_left (fun e c => server_onMessage (framed c) e) cs e.

(** The universe path named by the last of the commands [cs] that names
    one. *)
Definition path_after (cs : list Command) (p : Path) : Path :=
  fold_left (fun p c => match c with
                        | LoadUniverse q | SaveUniverse q => q
                        | NewUniverse => EmptyString
                        | _ => p
                        end) cs p.

(** The environment a call leaves, when it completes. *)
Definition env_of (o : outcome State) : outcome Env :=
  s <- o ;; Done (env s).

End Sessions.

(* ================================================================= *)
(** ** Reading back what the emitter wrote *)

(** [stream.read(value)] for a [uint32_t] (or [float]) destination. *)
Definition read_uint32 (h : Wire.Endian) (b : Blob.t) : outcome (Z * Blob.t) :=
  '(bytes, b') <- Blob.read 4 b ;;
  Done (Wire.uint32_of_bytes h bytes, b').

Fixpoint read_words (h : Wire.Endian) (n : nat) (b : Blob.t)
  : outcome (list Z * Blob.t) :=
  match n with
  | O => Done ([], b)
  | S n' =>
      '(w, b) <- read_uint32 h b ;;
      '(ws, b) <- read_words h n' b ;;
      Done (w :: ws, b)
  end.

(** The bytes a view has not read yet. *)
Definition remaining (b : Blob.t) : nat :=
  (length (Blob.m_data b) - Blob.m_pos b)%nat.

(** A receiver that views a message as [onMessage] does, reads the tag and
    then [n] 4-byte words; it returns the tag, the words and the number of
    bytes left over. *)
Definition decode_words (h : Wire.Endian) (n : nat) (message : list byte)
  : outcome (Z * list Z * nat) :=
  '(tag, b) <- Blob.read_int32 h (Blob.create message Blob.empty) ;;
  '(ws, b) <- read_words h n b ;;
  Done (tag, ws, remaining b).

(** The 4-byte arguments each fixed-size emitter function puts in its
    argument block, in the order of the source; [None] for the three
    functions whose payload has no fixed size. *)
Definition argument_words (c : Command) : option (list Z) :=
  match c with
  | LookAtSelected | ToggleGameMode | AddEntity | NewUniverse
  | PlayPausePreviewAnimable => Some []
  | AddComponent type => Some [type]
  | MouseDown px py button | MouseUp px py button => Some [px; py; button]
  | MouseMove px py dx dy flags => Some [px; py; dx; dy; flags]
  | SetWireframe b => Some [if b then 1 else 0]
  | SetAnimableTime time => Some [time]
  | SetEntityPosition entity position =>
      Some [entity; x position; y position; z position]
  | Navigate forward rightward speed => Some [forward; rightward; speed]
  | RequestProperties type_crc => Some [type_crc]
  | LoadUniverse _ | SaveUniverse _ | SetComponentProperty _ _ _ _ => None
  end.

(** The bytes of a C string found at the start of [bs]: everything before
    the first zero byte. *)
Fixpoint until_zero (bs : list byte) : list byte :=
  match bs with
  | [] => []
  | b :: bs' => if Byte.eqb b x00 then [] else b :: until_zero bs'
  end.

(** A receiver of a path message: the C string behind the tag. *)
Definition decode_path (message : list byte) : string :=
  string_of_list_byte (until_zero (skipn 4 message)).

(* ================================================================= *)
(** ** A concrete platform and concrete collaborators *)

(** The development is parametric in the host and in the collaborators.
    This module fixes one of each, to run the model on concrete inputs: a
    little-endian host, enumerators numbered from 1 in the order in which the
    source first names them, a server that keeps what it receives, and event
    structures with readers.  None of the general theorems depends on these
    choices. *)
Module Sample.
Import Wire.

Definition client_numbering (t : ClientMessageType) : Z :=
  match t with
  | LOOK_AT_SELECTED => 1 | ADD_COMPONENT => 2 | TOGGLE_GAME_MODE => 3
  | ADD_ENTITY => 4 | POINTER_DOWN => 5 | POINTER_UP => 6 | POINTER_MOVE => 7
  | LOAD => 8 | SET_WIREFRAME => 9 | NEW_UNIVERSE => 10
  | SET_ANIMABLE_TIME => 11 | PLAY_PAUSE_ANIMABLE => 12 | SET_POSITION => 13
  | SAVE => 14 | MOVE_CAMERA => 15 | PROPERTY_SET => 16 | GET_PROPERTIES => 17
  end.

Definition server_numbering (t : ServerMessageType) : Z :=
  match t with
  | ENTITY_POSITION => 1 | ENTITY_SELECTED => 2
  | PROPERTY_LIST => 3 | LOG_MESSAGE => 4
  end.

#[export] Instance platform : Platform.
Proof.
  refine {| host := LittleEndian;
            client_code := client_numbering;
            server_code := server_numbering;
            server_code_int := _;
            server_code_inj := _ |}.
  - intros k. destruct k; unfold INT32_MAX; simpl; lia.
  - intros j k. destruct j, k; simpl; intros H; try reflexivity; discriminate H.
Defined.

(** Modelled from the spec: the event structures of
    [editor/server_message_types.h] are not part of the translation unit.
    The spec's Event Taxonomy lists: "entity-position-changed (entity id +
    position), entity-selected (entity id, possibly a sentinel for none),
    property-list (component descriptor + ordered list of name/type/value
    entries), log-message (severity/category + text)".  The first two have a
    fixed layout of 4-byte fields.  For the two variable ones the spec gives
    no byte layout; the readers below take a 4-byte count before a list and a
    4-byte length before a run of bytes, as the spec does for property
    values. *)
Record PositionEvent : Type :=
  { position_index : Z; position_x : float32; position_y : float32;
    position_z : float32 }.

Record SelectedEvent : Type := { selected_index : Z }.

Record Property : Type :=
  { name_hash : Z; type_tag : Z; value_bytes : list byte }.

Record PropertiesEvent : Type :=
  { component_hash : Z; properties : list Property }.

Record MessageEvent : Type := { severity : Z; text : list byte }.

(** A 4-byte field read as an unsigned word (hashes, float patterns). *)
Definition read_word (b : Blob.t) : outcome (Z * Blob.t) :=
  '(bytes, b') <- Blob.read 4 b ;;
  Done (uint32_of_bytes LittleEndian bytes, b').

(** A run of bytes behind its 4-byte length; a negative length, taken as a
    size, names more bytes than any message holds. *)
Definition read_bytes (b : Blob.t) : outcome (list byte * Blob.t) :=
  '(n, b) <- Blob.read_int32 LittleEndian b ;;
  if n <? 0 then Undefined ReadOutsideObject else Blob.read (Z.to_nat n) b.

Definition read_position (b : Blob.t) : outcome (PositionEvent * Blob.t) :=
  '(i, b) <- Blob.read_int32 LittleEndian b ;;
  '(px, b) <- read_word b ;;
  '(py, b) <- read_word b ;;
  '(pz, b) <- read_word b ;;
  Done ({| position_index := i; position_x := px; position_y := py;
           position_z := pz |}, b).

Definition read_selected (b : Blob.t) : outcome (SelectedEvent * Blob.t) :=
  '(i, b) <- Blob.read_int32 LittleEndian b ;;
  Done ({| selected_index := i |}, b).

Definition read_property (b : Blob.t) : outcome (Property * Blob.t) :=
  '(h, b) <- read_word b ;;
  '(t, b) <- Blob.read_int32 LittleEndian b ;;
  '(v, b) <- read_bytes b ;;
  Done ({| name_hash := h; type_tag := t; value_bytes := v |}, b).

Fixpoint read_properties (count : nat) (b : Blob.t)
  : outcome (list Property * Blob.t) :=
  match count with
  | O => Done ([], b)
  | S count' =>
      '(p, b) <- read_property b ;;
      '(ps, b) <- read_properties count' b ;;
      Done (p :: ps, b)
  end.

Definition read_property_list (b : Blob.t) : outcome (PropertiesEvent * Blob.t) :=
  '(h, b) <- read_word b ;;
  '(count, b) <- Blob.read_int32 LittleEndian b ;;
  '(ps, b) <- read_properties (Z.to_nat count) b ;;
  Done ({| component_hash := h; properties := ps |}, b).

Definition read_log (b : Blob.t) : outcome (MessageEvent * Blob.t) :=
  '(sev, b) <- Blob.read_int32 LittleEndian b ;;
  '(t, b) <- read_bytes b ;;
  Done ({| severity := sev; text := t |}, b).

(** The rest of the process: what the server received, oldest first, and a
    journal in which listeners note that they ran. *)
Record World : Type :=
  { inbox : list (list byte); journal : list (nat * Z) }.

Definition receive (message : list byte) (w : World) : World :=
  {| inbox := inbox w ++ [message]; journal := journal w |}.

#[export] Instance collaborators : Collaborators := {|
  Env := World;
  server_onMessage := receive;
  EntityPositionEvent := PositionEvent;
  EntitySelectedEvent := SelectedEvent;
  PropertyListEvent := PropertiesEvent;
  LogEvent := MessageEvent;
  read_EntityPositionEvent := read_position;
  read_EntitySelectedEvent := read_selected;
  read_PropertyListEvent := read_property_list;
  read_LogEvent := read_log
|}.

Definition quiet : World := {| inbox := []; journal := [] |}.

(** Before [create]: no implementation object, nothing sent, nothing
    heard. *)
Definition initial : State :=
  {| m_impl := None; property_stream := Blob.empty; env := quiet |}.

Definition created : State := fst (create "data" initial).

(** A listener for selection events that notes its number and the entity
    it was shown, and leaves the event as it is. *)
Definition noting (n : nat) : Delegate SelectedEvent :=
  fun msg w =>
    (msg, {| inbox := inbox w;
             journal := journal w ++ [(n, selected_index msg)] |}).

(** A listener that also overwrites the entity of the event it was
    handed. *)
Definition retargeting (n : nat) (entity : Z) : Delegate SelectedEvent :=
  fun msg w =>
    ({| selected_index := entity |},
     {| inbox := inbox w;
        journal := journal w ++ [(n, selected_index msg)] |}).

(** A created client on which three noting listeners were bound to the
    entity-selected list, in the order 1, 2, 3. *)
Definition listening : outcome State :=
  s <- entitySelected_bind (noting 1) created ;;
  s <- entitySelected_bind (noting 2) s ;;
  entitySelected_bind (noting 3) s.

Definition listening_state : State :=
  match listening with
  | Done s => s
  | Undefined _ => initial
  end.

Definition sent (o : outcome State) : option (list (list byte)) :=
  match o with
  | Done s => Some (inbox (env s))
  | Undefined _ => None
  end.

Definition heard (o : outcome State) : option (list (nat * Z)) :=
  match o with
  | Done s => Some (journal (env s))
  | Undefined _ => None
  end.

(** A property command, and three other commands to issue after it. *)
Definition scale_property : Command :=
  SetComponentProperty "Transform" "Scale" [x3f; x80; x00; x00] 4.

Definition other_commands : list Command :=
  [SetComponentProperty "Light" "Color" [x01; x02; x03; x04; x05; x06; x07; x08] 8;
   LoadUniverse "a.unv";
   MouseMove 1 2 3 4 0].

Definition after_other_commands : State :=
  match issue_all (scale_property :: other_commands) created with
  | Done s => s
  | Undefined _ => initial
  end.

End Sample.

(** Sessions on the sample platform. *)
Module SampleSession.
Import Sample.

(** A listener for position events that notes its number and the entity. *)
Definition noting_position (n : nat) : Delegate PositionEvent :=
  fun msg w =>
    (msg, {| inbox := inbox w;
             journal := journal w ++ [(n, position_index msg)] |}).

(** A listener for log events; no operation can bind it. *)
Definition noting_log (n : nat) : Delegate MessageEvent :=
  fun msg w =>
    (msg, {| inbox := inbox w;
             journal := journal w ++ [(n, severity msg)] |}).

(** An entity-selected message for entity 42, an entity-position message
    for entity 7 at (1.0, 2.0, 3.0), and a log message of severity 2 with
    the text "ok". *)
Definition selected_42 : list byte :=
  [x02; x00; x00; x00;  x2a; x00; x00; x00].

Definition position_7 : list byte :=
  [x01; x00; x00; x00;  x07; x00; x00; x00;  x00; x00; x80; x3f;
   x00; x00; x00; x40;  x00; x00; x40; x40].

Definition log_ok : list byte :=
  [x04; x00; x00; x00;  x02; x00; x00; x00;  x02; x00; x00; x00;  x6f; x6b].

(** A session from before [create]: create, bind, load, receive, destroy,
    create again, bind, issue, receive. *)
Definition session : list Operation :=
  [Create "data"; BindEntitySelected (noting 1); Issue (LoadUniverse "a.unv");
   Receive selected_42; Destroy; Create "other";
   BindEntityPosition (noting_position 2); Issue AddEntity;
   Receive position_7; Receive log_ok].

Definition after_session : State :=
  match perform_all session initial with
  | Done s => s
  | Undefined _ => initial
  end.

(** Operations on a created client that neither create nor destroy. *)
Definition busy : list Operation :=
  [BindEntitySelected (noting 4); Issue (SaveUniverse "b.unv");
   Receive selected_42; BindPropertyList (fun msg w => (msg, w));
   Issue (MouseMove 1 2 3 4 0)].

Definition after_busy : State :=
  match perform_all busy listening_state with
  | Done s => s
  | Undefined _ => initial
  end.

Definition traffic : list Operation :=
  [Issue (SaveUniverse "b.unv"); Receive selected_42; Issue NewUniverse;
   Receive position_7].

Definition after_traffic : State :=
  match perform_all traffic listening_state with
  | Done s => s
  | Undefined _ => initial
  end.

Definition path_commands : list Command :=
  [LoadUniverse "a.unv"; MouseDown 1 2 0; SaveUniverse "b.unv"; AddEntity].

End SampleSession.

(* ################################################################# *)
(** * Part II: properties *)

(* ================================================================= *)
(** ** Facts about the representation of integers *)

Module WireFacts.
Import Wire.

Lemma Z_of_byte_range (b : byte) : 0 <= Z_of_byte b < 256.
Proof.
  unfold Z_of_byte. pose proof (Byte.to_N_bounded b) as H. lia.
Qed.

Lemma Z_of_byte_of_Z (z : Z) : Z_of_byte (byte_of_Z z) = z mod 256.
Proof.
  unfold Z_of_byte, byte_of_Z.
  assert (Hr : 0 <= z mod 256 < 256) by (apply Z.mod_pos_bound; lia).
  destruct (Byte.of_N (Z.to_N (z mod 256))) as [b|] eqn:E.
  - apply Byte.to_of_N in E. rewrite E. lia.
  - apply Byte.of_N_None_iff in E. lia.
Qed.

Lemma byte_of_Z_of_byte (b : byte) : byte_of_Z (Z_of_byte b) = b.
Proof.
  unfold byte_of_Z, Z_of_byte.
  pose proof (Z_of_byte_range b) as Hr. unfold Z_of_byte in Hr.
  rewrite Z.mod_small by lia. rewrite N2Z.id.
  now rewrite Byte.of_to_N.
Qed.

Lemma le_bytes_length (n : nat) (z : Z) : length (le_bytes n z) = n.
Proof.
  revert z; induction n as [|n IH]; intros z; simpl; [reflexivity|].
  now rewrite IH.
Qed.

Lemma le_value_range (bs : list byte) :
  0 <= le_value bs < 2 ^ (8 * Z.of_nat (length bs)).
Proof.
  induction bs as [|b bs IH].
  - simpl. lia.
  - cbn [le_value length]. rewrite Z.shiftl_mul_pow2 by lia.
    pose proof (Z_of_byte_range b) as Hb.
    replace (8 * Z.of_nat (S (length bs))) with (8 * Z.of_nat (length bs) + 8) by lia.
    rewrite Z.pow_add_r by lia.
    change (2 ^ 8) with 256. nia.
Qed.

Lemma le_value_bytes (n : nat) (z : Z) :
  le_value (le_bytes n z) = z mod 2 ^ (8 * Z.of_nat n).
Proof.
  revert z; induction n as [|n IH]; intros z.
  - simpl. now rewrite Z.mod_1_r.
  - cbn [le_bytes le_value]. rewrite IH, Z_of_byte_of_Z.
    rewrite Z.shiftl_mul_pow2, Z.shiftr_div_pow2 by lia.
    replace (8 * Z.of_nat (S n)) with (8 + 8 * Z.of_nat n) by lia.
    rewrite Z.pow_add_r by lia. change (2 ^ 8) with 256.
    rewrite Z.rem_mul_r by lia. lia.
Qed.

Lemma le_bytes_value (bs : list byte) :
  le_bytes (length bs) (le_value bs) = bs.
Proof.
  induction bs as [|b bs IH]; [reflexivity|].
  cbn [length le_bytes le_value].
  pose proof (Z_of_byte_range b) as Hb.
  rewrite Z.shiftl_mul_pow2 by lia. change (2 ^ 8) with 256.
  f_equal.
  - rewrite <- (byte_of_Z_of_byte b) at 2. unfold byte_of_Z.
    replace ((Z_of_byte b + le_value bs * 256) mod 256) with (Z_of_byte b mod 256);
      [reflexivity|].
    rewrite Z.add_mod, Z.mod_mul by lia. rewrite Z.add_0_r, Z.mod_mod; lia.
  - rewrite Z.shiftr_div_pow2 by lia. change (2 ^ 8) with 256.
    rewrite Z.div_add, Z.div_small by lia. now rewrite Z.add_0_l.
Qed.

Lemma object_bytes_length (host : Endian) (n : nat) (z : Z) :
  length (object_bytes host n z) = n.
Proof.
  destruct host; simpl; [|rewrite length_rev]; apply le_bytes_length.
Qed.

Lemma word_bytes_length (host : Endian) (z : Z) :
  length (word_bytes host z) = 4%nat.
Proof. apply object_bytes_length. Qed.

Lemma object_value_bytes (host : Endian) (n : nat) (z : Z) :
  object_value host (object_bytes host n z) = z mod 2 ^ (8 * Z.of_nat n).
Proof.
  destruct host; simpl; [|rewrite rev_involutive]; apply le_value_bytes.
Qed.

Lemma object_bytes_value (host : Endian) (bs : list byte) :
  object_bytes host (length bs) (object_value host bs) = bs.
Proof.
  destruct host; simpl.
  - apply le_bytes_value.
  - rewrite <- (length_rev bs), le_bytes_value. apply rev_involutive.
Qed.

Lemma uint32_of_word_bytes (host : Endian) (z : Z) :
  uint32_of_bytes host (word_bytes host z) = to_uint32 z.
Proof. apply (object_value_bytes host 4). Qed.

Lemma to_int32_mod (z : Z) : to_int32 (z mod UINT32_MOD) = to_int32 z.
Proof. unfold to_int32. now rewrite Z.mod_mod by (unfold UINT32_MOD; lia). Qed.

Lemma int32_of_word_bytes (host : Endian) (z : Z) :
  int32_of_bytes host (word_bytes host z) = to_int32 z.
Proof.
  unfold int32_of_bytes, word_bytes. rewrite (object_value_bytes host 4).
  apply to_int32_mod.
Qed.

Lemma to_int32_small (z : Z) :
  - 2 ^ 31 <= z <= INT32_MAX -> to_int32 z = z.
Proof.
  unfold to_int32, INT32_MAX, UINT32_MOD. intros H.
  destruct (Z.leb_spec (z mod 2 ^ 32) (2 ^ 31 - 1)) as [L|L].
  - destruct (Z.le_gt_cases 0 z) as [P|N].
    + rewrite Z.mod_small in *; lia.
    + replace z with (z + 2 ^ 32 - 1 * 2 ^ 32) in L by lia.
      rewrite Zminus_mod, Z_mod_mult, Z.sub_0_r, Z.mod_mod in L by lia.
      rewrite Z.mod_small in L; lia.
  - destruct (Z.le_gt_cases 0 z) as [P|N].
    + rewrite Z.mod_small in *; lia.
    + replace z with (z + 2 ^ 32 - 1 * 2 ^ 32) at 1 by lia.
      rewrite Zminus_mod, Z_mod_mult, Z.sub_0_r, Z.mod_mod by lia.
      rewrite Z.mod_small; lia.
Qed.

Lemma to_int32_range (z : Z) : - 2 ^ 31 <= to_int32 z <= INT32_MAX.
Proof.
  unfold to_int32, INT32_MAX, UINT32_MOD.
  pose proof (Z.mod_pos_bound z (2 ^ 32) ltac:(lia)) as H.
  destruct (Z.leb_spec (z mod 2 ^ 32) (2 ^ 31 - 1)); lia.
Qed.

End WireFacts.

(* ================================================================= *)
(** ** Facts about the hash *)

Module CrcFacts.
Import Wire Crc WireFacts.

(** The check value of the CRC-32 catalogue. *)
Example crc32_check_value : crc32 "123456789" = 0xCBF43926.
Proof. vm_compute. reflexivity. Qed.

Lemma lxor_uint32 (a b : Z) : is_uint32 a -> is_uint32 b -> is_uint32 (Z.lxor a b).
Proof.
  unfold is_uint32. intros Ha Hb.
  assert (Hn : 0 <= Z.lxor a b) by (apply Z.lxor_nonneg; lia).
  split; [exact Hn|].
  destruct (Z.eq_dec (Z.lxor a b) 0) as [E|E]; [rewrite E; lia|].
  apply Z.log2_lt_pow2; [lia|].
  eapply Z.le_lt_trans; [apply Z.log2_lxor; lia|].
  apply Z.max_lub_lt.
  - destruct (Z.eq_dec a 0) as [->|]; [simpl; lia|apply Z.log2_lt_pow2; lia].
  - destruct (Z.eq_dec b 0) as [->|]; [simpl; lia|apply Z.log2_lt_pow2; lia].
Qed.

Lemma shiftr1_uint32 (c : Z) : is_uint32 c -> is_uint32 (Z.shiftr c 1).
Proof.
  unfold is_uint32. intros H. rewrite Z.shiftr_div_pow2 by lia.
  change (2 ^ 1) with 2. split.
  - apply Z.div_pos; lia.
  - apply Z.div_lt_upper_bound; lia.
Qed.

Lemma crc_bit_uint32 (c : Z) : is_uint32 c -> is_uint32 (crc_bit c).
Proof.
  intros H. unfold crc_bit. destruct (Z.testbit c 0).
  - apply lxor_uint32; [now apply shiftr1_uint32|].
    unfold is_uint32, POLYNOMIAL. lia.
  - now apply shiftr1_uint32.
Qed.

Lemma crc_byte_uint32 (c : Z) (b : byte) : is_uint32 c -> is_uint32 (crc_byte c b).
Proof.
  intros H. unfold crc_byte.
  assert (H0 : is_uint32 (Z.lxor c (Z_of_byte b))).
  { apply lxor_uint32; [exact H|].
    pose proof (Z_of_byte_range b). unfold is_uint32. lia. }
  revert H0. generalize (Z.lxor c (Z_of_byte b)). intros z Hz.
  do 8 (rewrite Nat.iter_succ; apply crc_bit_uint32).
  exact Hz.
Qed.

Lemma crc32_bytes_uint32 (bs : list byte) : is_uint32 (crc32_bytes bs).
Proof.
  unfold crc32_bytes.
  assert (H1 : is_uint32 ALL_ONES) by (unfold is_uint32, ALL_ONES; lia).
  apply lxor_uint32; [|exact H1].
  revert H1. generalize ALL_ONES. intros c Hc.
  revert c Hc; induction bs as [|b bs IH]; intros c Hc; simpl; [exact Hc|].
  apply IH. now apply crc_byte_uint32.
Qed.

(** The hash fits the [uint32_t] it is assigned to. *)
Lemma crc32_uint32 (name : string) : to_uint32 (crc32 name) = crc32 name.
Proof.
  pose proof (crc32_bytes_uint32 (list_byte_of_string name)) as H.
  unfold to_uint32, UINT32_MOD, crc32, is_uint32 in *.
  apply Z.mod_small. exact H.
Qed.

End CrcFacts.

(* ================================================================= *)
(** ** Facts about the byte stream *)

Module BlobFacts.
Import Wire Blob WireFacts.

(** A write whose source holds the bytes it names appends them. *)
Lemma write_prefix (src : list byte) (size : Z) (b : t) :
  0 <= size <= Z.of_nat (length src) ->
  write src size b = Done (append (firstn (Z.to_nat size) src) b).
Proof.
  intros [H0 H1]. unfold write.
  apply Z.leb_le in H0, H1. now rewrite H0, H1.
Qed.

Lemma write_whole (src : list byte) (size : Z) (b : t) :
  size = Z.of_nat (length src) ->
  write src size b = Done (append src b).
Proof.
  intros ->. rewrite write_prefix by lia.
  now rewrite Nat2Z.id, firstn_all.
Qed.

Lemma write_word (h : Endian) (w : Z) (b : t) :
  write (word_bytes h w) 4 b = Done (append (word_bytes h w) b).
Proof. apply write_whole. now rewrite word_bytes_length. Qed.


(** The bytes of a buffer that was cleared and then written do not depend
    on what it held before. *)
Lemma append_clearBuffer (bytes : list byte) (b : t) :
  getBuffer (append bytes (clearBuffer b)) = bytes.
Proof. reflexivity. Qed.

End BlobFacts.

(* ================================================================= *)
(** ** The model on concrete inputs *)

Example float32_one : float32_value 0x3F800000 = Some (1 # 1)%Q.
Proof. vm_compute. reflexivity. Qed.

Example float32_minus_half : float32_value 0xBF000000 = Some (-1 # 2)%Q.
Proof. vm_compute. reflexivity. Qed.

Section SampleRuns.
Import Sample.

Example lookAtSelected_sample :
  sent (lookAtSelected created) = Some [[x01; x00; x00; x00]].
Proof. reflexivity. Qed.

Example mouseDown_sample :
  sent (mouseDown 3 (-1) 2 created)
  = Some [[x05; x00; x00; x00;  x03; x00; x00; x00;
           xff; xff; xff; xff;  x02; x00; x00; x00]].
Proof. reflexivity. Qed.

Example loadUniverse_sample :
  sent (loadUniverse "a.unv" created)
  = Some [[x08; x00; x00; x00;  x61; x2e; x75; x6e; x76; x00]].
Proof. reflexivity. Qed.

Example emitter_before_create :
  lookAtSelected initial = Undefined NullDereference.
Proof. reflexivity. Qed.

Example dispatch_sample :
  heard (s <- entitySelected_bind (noting 1) created ;;
         onMessage [x02; x00; x00; x00;  x2a; x00; x00; x00] s)
  = Some [(1%nat, 42)].
Proof. reflexivity. Qed.

(** A length that names more bytes than the value holds makes the write
    read outside the value. *)
Example setComponentProperty_overlong :
  setComponentProperty "Transform" "Scale" [x3f; x80; x00; x00] 8 created
  = Undefined ReadOutsideObject.
Proof. reflexivity. Qed.

(** A destroyed client ignores what arrives, and its emitter is undefined. *)
Example destroyed_sample :
  onMessage [x02; x00; x00; x00;  x2a; x00; x00; x00] (destroy listening_state)
  = Done (destroy listening_state)
  /\ addEntity (destroy listening_state) = Undefined NullDereference.
Proof. split; reflexivity. Qed.

End SampleRuns.

(* ================================================================= *)
(** ** Framing lemmas *)

Lemma word_bytes_to_uint32 (h : Wire.Endian) (w : Z) :
  Wire.word_bytes h (Wire.to_uint32 w) = Wire.word_bytes h w.
Proof.
  unfold Wire.word_bytes, Wire.to_uint32, Wire.UINT32_MOD.
  assert (E : Wire.le_bytes 4 (w mod 2 ^ 32) = Wire.le_bytes 4 w).
  { pose proof (WireFacts.le_bytes_value (Wire.le_bytes 4 w)) as H.
    rewrite WireFacts.le_bytes_length, WireFacts.le_value_bytes in H. exact H. }
  destruct h; unfold Wire.object_bytes; now rewrite E.
Qed.

Lemma word_bytes_to_int32 (h : Wire.Endian) (w : Z) :
  Wire.word_bytes h (Wire.to_int32 w) = Wire.word_bytes h w.
Proof.
  rewrite <- (word_bytes_to_uint32 h (Wire.to_int32 w)).
  rewrite <- (word_bytes_to_uint32 h w).
  f_equal. unfold Wire.to_int32, Wire.to_uint32, Wire.UINT32_MOD.
  destruct (w mod 2 ^ 32 <=? Wire.INT32_MAX).
  - apply Z.mod_mod. lia.
  - rewrite Zminus_mod, Z_mod_same_full, Z.sub_0_r.
    rewrite !Z.mod_mod by lia. reflexivity.
Qed.

Lemma list_byte_of_string_length (s : string) :
  length (list_byte_of_string s) = String.length s.
Proof.
  unfold list_byte_of_string. rewrite length_map.
  induction s as [|c s IH]; simpl; [reflexivity|now rewrite IH].
Qed.

Lemma c_str_object_length (s : string) :
  Z.of_nat (length (c_str_object s)) = strlen s + 1.
Proof.
  unfold c_str_object, strlen.
  rewrite length_app, list_byte_of_string_length. simpl. lia.
Qed.

(** The emitter functions that only build an argument block and call
    [sendMessage], and the four that do something before. *)
Ltac unfold_senders :=
  unfold lookAtSelected, addComponent, toggleGameMode, addEntity, mouseDown,
    mouseUp, mouseMove, setWireframe, setAnimableTime,
    playPausePreviewAnimable, setEntityPosition, navigate, requestProperties.

Ltac unfold_emitter_in H :=
  unfold lookAtSelected, addComponent, toggleGameMode, addEntity, mouseDown,
    mouseUp, mouseMove, setWireframe, setAnimableTime,
    playPausePreviewAnimable, setEntityPosition, navigate, requestProperties,
    loadUniverse, newUniverse, saveUniverse, setComponentProperty in H.

(** One step of a sequence of calls: either the call is undefined, and the
    hypothesis that the sequence completed is absurd, or it returned. *)
Ltac step_in H :=
  match type of H with
  | bind ?c _ = Done _ => destruct c; cbn [bind] in H; [|discriminate H]
  end.

Section Framing.

Context {platform : Platform} {collaborators : Collaborators}.

Import Wire WireFacts.

(** [sendMessage] with a null [data] frames the tag alone. *)
Lemma sendMessage_null (type size : Z) (e : Env) :
  sendMessage type None size e
  = Done (server_onMessage (word_bytes host type) e).
Proof.
  unfold sendMessage. rewrite BlobFacts.write_word. cbn.
  now rewrite word_bytes_to_uint32.
Qed.

(** [sendMessage] with a source of at least [size] bytes frames the tag and
    the first [size] bytes of the source. *)
Lemma sendMessage_data (type size : Z) (src : list byte) (e : Env) :
  0 <= size <= Z.of_nat (length src) -> size <= INT32_MAX ->
  sendMessage type (Some src) size e
  = Done (server_onMessage
            (word_bytes host type ++ firstn (Z.to_nat size) src) e).
Proof.
  intros Hs Hm. unfold sendMessage.
  rewrite BlobFacts.write_word. cbn [bind].
  rewrite to_int32_small by (unfold INT32_MAX in *; lia).
  rewrite BlobFacts.write_prefix by exact Hs. cbn.
  now rewrite word_bytes_to_uint32.
Qed.

Lemma impl_sendMessage_null (t : ClientMessageType) (size : Z) (s : State)
  (i : EditorClientImpl) :
  m_impl s = Some i ->
  impl_sendMessage t None size s
  = Done (with_env s (server_onMessage (word_bytes host (client_code t)) (env s))).
Proof.
  intros Hi. unfold impl_sendMessage, deref. rewrite Hi. cbn [bind].
  now rewrite sendMessage_null.
Qed.

Lemma impl_sendMessage_whole (t : ClientMessageType) (size : Z)
  (src : list byte) (s : State) (i : EditorClientImpl) :
  m_impl s = Some i ->
  size = Z.of_nat (length src) -> size <= INT32_MAX ->
  impl_sendMessage t (Some src) size s
  = Done (with_env s
            (server_onMessage (word_bytes host (client_code t) ++ src) (env s))).
Proof.
  intros Hi Hs Hm. unfold impl_sendMessage, deref. rewrite Hi. cbn [bind].
  rewrite sendMessage_data by lia. cbn [bind].
  subst size. now rewrite Nat2Z.id, firstn_all.
Qed.

(** Without an implementation object no emitter call is defined. *)
Lemma impl_sendMessage_no_impl (t : ClientMessageType)
  (data : option (list byte)) (size : Z) (s : State) :
  m_impl s = None ->
  impl_sendMessage t data size s = Undefined NullDereference.
Proof. intros H. unfold impl_sendMessage, deref. now rewrite H. Qed.

Lemma append_append (u v : list byte) (b : Blob.t) :
  Blob.append v (Blob.append u b) = Blob.append (u ++ v) b.
Proof.
  unfold Blob.append; cbn. rewrite <- app_assoc. f_equal.
  rewrite !length_app. lia.
Qed.

(** The effect of every emitter call on a created client whose arguments
    are in order: one call of the server's [onMessage], on the framed
    command. *)
Lemma issue_effect (c : Command) (s : State) (i : EditorClientImpl) :
  m_impl s = Some i -> arguments_ok c ->
  issue c s
  = Done {| m_impl := Some (impl_after c i);
            property_stream := stream_after c (property_stream s);
            env := server_onMessage (framed c) (env s) |}.
Proof.
  intros Hi Hok. unfold framed.
  destruct c; cbn [issue table_tag table_payload impl_after stream_after];
    unfold_senders.
  all: try (rewrite (impl_sendMessage_null _ _ s i Hi), app_nil_r;
            unfold with_env; now rewrite Hi).
  all: try (rewrite (impl_sendMessage_whole _ _ _ s i Hi);
            [unfold with_env; now rewrite Hi
            |unfold Vec3_bytes; rewrite ?length_app, !word_bytes_length; reflexivity
            |unfold INT32_MAX; lia]).
  - (* loadUniverse *)
    unfold arguments_ok in Hok. unfold loadUniverse, deref. rewrite Hi. cbn [bind].
    rewrite to_int32_small by (unfold strlen, INT32_MAX in *; lia).
    erewrite impl_sendMessage_whole; [reflexivity|reflexivity| |exact Hok].
    now rewrite c_str_object_length.
  - (* newUniverse *)
    unfold newUniverse, deref. rewrite Hi. cbn [bind].
    erewrite impl_sendMessage_null by reflexivity. now rewrite app_nil_r.
  - (* saveUniverse *)
    unfold arguments_ok in Hok. unfold saveUniverse, deref. rewrite Hi. cbn [bind].
    rewrite to_int32_small by (unfold strlen, INT32_MAX in *; lia).
    erewrite impl_sendMessage_whole; [reflexivity|reflexivity| |exact Hok].
    now rewrite c_str_object_length.
  - (* setComponentProperty *)
    unfold arguments_ok in Hok. destruct Hok as [[H0 H1] H2].
    unfold setComponentProperty.
    rewrite to_int32_small by (unfold INT32_MAX in *; lia).
    repeat (rewrite BlobFacts.write_word; cbn [bind]).
    rewrite BlobFacts.write_prefix by lia. cbn [bind].
    rewrite !append_append, !word_bytes_to_uint32, <- ?app_assoc.
    erewrite impl_sendMessage_whole; [|exact Hi|reflexivity|].
    + unfold with_env. cbn. now rewrite Hi.
    + unfold Blob.getBufferSize. cbn.
      rewrite !length_app, !word_bytes_length, length_firstn.
      unfold INT32_MAX in *. lia.
Qed.

(** Emitter calls keep the implementation object in place. *)
Lemma issue_keeps_impl (c : Command) (s s' : State) :
  issue c s = Done s' -> m_impl s <> None -> m_impl s' <> None.
Proof.
  intros H Hs.
  assert (G : forall t d n s0, impl_sendMessage t d n s0 = Done s' ->
                               m_impl s0 <> None -> m_impl s' <> None).
  { intros t d n s0 E. unfold impl_sendMessage in E.
    do 2 step_in E. injection E as <-. auto. }
  destruct c; cbn [issue] in H; unfold_emitter_in H.
  all: try (eapply G; [exact H|exact Hs]).
  all: try (step_in H; eapply G; [exact H|cbn; discriminate]).
  repeat step_in H.
  eapply G; [exact H|exact Hs].
Qed.

End Framing.

(* ================================================================= *)
(** ** Dispatch lemmas *)

Section Dispatch.

Context {platform : Platform} {collaborators : Collaborators}.

Import Wire WireFacts.

Lemma read_tag (data : list byte) :
  (4 <= length data)%nat ->
  Blob.read_int32 host (Blob.create data Blob.empty)
  = Done (tag_of data, payload_view data).
Proof.
  intros H. unfold Blob.read_int32, Blob.read, Blob.create. cbn.
  destruct data as [|a [|b [|c [|d rest]]]]; cbn in H; try lia.
  reflexivity.
Qed.

Lemma read_tag_short (data : list byte) :
  (length data < 4)%nat ->
  Blob.read_int32 host (Blob.create data Blob.empty) = Undefined ReadOutsideObject.
Proof.
  intros H. unfold Blob.read_int32, Blob.read, Blob.create. cbn.
  destruct data as [|a [|b [|c [|d rest]]]]; cbn in H; try lia; reflexivity.
Qed.

Lemma tag_of_framed (k : ServerMessageType) (payload : list byte) :
  tag_of (word_bytes host (server_code k) ++ payload) = server_code k.
Proof.
  unfold tag_of.
  rewrite firstn_app, word_bytes_length, Nat.sub_diag, firstn_O, app_nil_r.
  rewrite <- (word_bytes_length host (server_code k)) at 1.
  rewrite firstn_all, int32_of_word_bytes.
  apply to_int32_small, server_code_int.
Qed.

(** A message too short to hold a tag: the first read overruns it. *)
Lemma Impl_onMessage_short (i : EditorClientImpl) (data : list byte) (e : Env) :
  (length data < 4)%nat ->
  Impl_onMessage i data e = Undefined ReadOutsideObject.
Proof.
  intros H. unfold Impl_onMessage. now rewrite read_tag_short.
Qed.

(** A message with a recognized tag: the reader of that event runs on the
    rest of the message, and the listeners of that event are invoked with
    what it returns. *)
Lemma Impl_onMessage_recognized (k : ServerMessageType) (i : EditorClientImpl)
  (data : list byte) (e : Env) :
  (4 <= length data)%nat -> tag_of data = server_code k ->
  Impl_onMessage i data e
  = ('(msg, _) <- read_event k (payload_view data) ;;
     Done (snd (invoke (delegates k i) msg e))).
Proof.
  intros Hlen Htag. unfold Impl_onMessage.
  rewrite read_tag by exact Hlen. cbn [bind]. rewrite Htag.
  destruct k; cbn [read_event delegates Event];
    repeat match goal with
    | |- context [server_code ?a =? server_code ?a] => rewrite Z.eqb_refl
    | |- context [server_code ?a =? server_code ?b] =>
        let E := fresh in
        destruct (Z.eqb_spec (server_code a) (server_code b)) as [E|E];
        [apply server_code_inj in E; discriminate E|]
    end; reflexivity.
Qed.

(** A message with any other tag: nothing is read further, nothing is
    invoked. *)
Lemma Impl_onMessage_unrecognized (i : EditorClientImpl) (data : list byte)
  (e : Env) :
  (4 <= length data)%nat -> ~ recognized (tag_of data) ->
  Impl_onMessage i data e = Done e.
Proof.
  intros Hlen Htag. unfold Impl_onMessage.
  rewrite read_tag by exact Hlen. cbn [bind].
  repeat match goal with
  | |- context [tag_of data =? server_code ?a] =>
      destruct (Z.eqb_spec (tag_of data) (server_code a));
      [exfalso; apply Htag; now exists a|]
  end.
  reflexivity.
Qed.

(** The public entry point on a created client, for a recognized tag. *)
Lemma onMessage_recognized (k : ServerMessageType) (data : list byte)
  (s : State) (i : EditorClientImpl) :
  m_impl s = Some i ->
  (4 <= length data)%nat -> tag_of data = server_code k ->
  onMessage data s
  = match read_event k (payload_view data) with
    | Done (msg, _) =>
        Done (with_env s (snd (invoke (delegates k i) msg (env s))))
    | Undefined f => Undefined f
    end.
Proof.
  intros Hi Hlen Htag. unfold onMessage. rewrite Hi.
  rewrite (Impl_onMessage_recognized k) by assumption.
  destruct (read_event k (payload_view data)) as [[msg rest]|f]; reflexivity.
Qed.

(** Whatever the message, a call that completes only changed the
    environment. *)
Lemma onMessage_frame (data : list byte) (s s' : State) :
  onMessage data s = Done s' ->
  m_impl s' = m_impl s /\ property_stream s' = property_stream s.
Proof.
  unfold onMessage. destruct (m_impl s) as [i|] eqn:Hi.
  - destruct (Impl_onMessage i data (env s)); cbn [bind]; [|discriminate].
    intros E; injection E as <-. cbn. now rewrite Hi.
  - intros E; injection E as <-. now rewrite Hi.
Qed.

Lemma invoke_fold {E : Type} (l : DelegateList E) (msg : E) (e : Env) :
  invoke l msg e = fold_left call l (msg, e).
Proof.
  revert msg e; induction l as [|d l IH]; intros msg e; cbn; [reflexivity|].
  unfold call at 2. cbn. destruct (d msg e) as [msg' e']. apply IH.
Qed.

Lemma invoke_bind {E : Type} (l : DelegateList E) (d : Delegate E) (msg : E)
  (e : Env) :
  invoke (DelegateList_bind d l) msg e = call (invoke l msg e) d.
Proof.
  unfold DelegateList_bind. rewrite !invoke_fold, fold_left_app. reflexivity.
Qed.

End Dispatch.

(* ================================================================= *)
(** ** Slicing a payload into its 4-byte fields *)

Lemma firstn_word (h : Wire.Endian) (w : Z) (rest : list byte) :
  firstn 4 (Wire.word_bytes h w ++ rest) = Wire.word_bytes h w.
Proof.
  rewrite firstn_app, WireFacts.word_bytes_length, Nat.sub_diag, firstn_O, app_nil_r.
  rewrite <- (WireFacts.word_bytes_length h w) at 1. apply firstn_all.
Qed.

Lemma skipn_word (h : Wire.Endian) (w : Z) (rest : list byte) :
  skipn 4 (Wire.word_bytes h w ++ rest) = rest.
Proof.
  rewrite skipn_app, WireFacts.word_bytes_length, Nat.sub_diag, skipn_O.
  rewrite <- (WireFacts.word_bytes_length h w) at 1. now rewrite skipn_all.
Qed.

Lemma skipn_two_words (h : Wire.Endian) (a b : Z) (rest : list byte) :
  skipn 8 (Wire.word_bytes h a ++ Wire.word_bytes h b ++ rest) = rest.
Proof.
  change 8%nat with (4 + 4)%nat. rewrite <- skipn_skipn.
  now rewrite !skipn_word.
Qed.

Lemma skipn_three_words (h : Wire.Endian) (a b c : Z) (rest : list byte) :
  skipn 12 (Wire.word_bytes h a ++ Wire.word_bytes h b ++ Wire.word_bytes h c ++ rest)
  = rest.
Proof.
  change 12%nat with (4 + 8)%nat. rewrite <- skipn_skipn.
  now rewrite skipn_two_words, skipn_word.
Qed.

(* ================================================================= *)
(** ** The emitter: what reaches the server *)

(** C1.  Every emitter call on a created client passes exactly one message
    to the server's [onMessage]: the four bytes of the command's tag followed
    by the payload of the spec's command table, and for the five commands
    without payload the four tag bytes alone. *)
Theorem emitter_sends_one_framed_message
  {platform : Platform} {collaborators : Collaborators}
  (c : Command) (s : State) (i : EditorClientImpl) :
  m_impl s = Some i -> arguments_ok c ->
  exists s' : State,
    issue c s = Done s'
    /\ env s'
       = server_onMessage
           (Wire.word_bytes host (client_code (table_tag c)) ++ table_payload c)
           (env s)
    /\ length (Wire.word_bytes host (client_code (table_tag c))) = 4%nat
    /\ (no_payload c = true ->
        env s'
        = server_onMessage (Wire.word_bytes host (client_code (table_tag c)))
            (env s)).
Proof.
  intros Hi Hok. eexists. split; [apply (issue_effect c s i Hi Hok)|].
  cbn [env]. split; [reflexivity|]. split; [apply WireFacts.word_bytes_length|].
  intros Hn. unfold framed.
  destruct c; try discriminate Hn; cbn [table_payload]; now rewrite app_nil_r.
Qed.

Section EmitterRuns.
Import Sample.

Lemma emitter_sends_one_framed_message_witness :
  m_impl Sample.created <> None
  /\ arguments_ok (MouseDown 3 (-1) 2)
  /\ exists s' : State,
       issue (MouseDown 3 (-1) 2) Sample.created = Done s'
       /\ Sample.inbox (env s')
          = Sample.inbox (env Sample.created)
            ++ [[x05; x00; x00; x00;  x03; x00; x00; x00;
                 xff; xff; xff; xff;  x02; x00; x00; x00]].
Proof.
  split; [discriminate|]. split; [exact I|].
  destruct (emitter_sends_one_framed_message (MouseDown 3 (-1) 2)
              Sample.created _ eq_refl I) as [s' [H [E _]]].
  exists s'. split; [exact H|]. rewrite E. reflexivity.
Defined.

End EmitterRuns.

(** C2.  [setComponentProperty] emits, behind the tag, the CRC-32 of the
    component name, the CRC-32 of the property name, the length and the
    [length] bytes of the value, each of the first three in four bytes and
    with nothing in between; when [length] is the size of the value the tail
    is the value itself. *)
Theorem setComponentProperty_payload
  {platform : Platform} {collaborators : Collaborators}
  (component property : string) (value : list byte) (len : Z)
  (s : State) (i : EditorClientImpl) :
  m_impl s = Some i ->
  0 <= len <= Z.of_nat (length value) -> 12 + len <= Wire.INT32_MAX ->
  let payload :=
    Wire.word_bytes host (Crc.crc32 component)
    ++ Wire.word_bytes host (Crc.crc32 property)
    ++ Wire.word_bytes host len ++ firstn (Z.to_nat len) value in
  exists s' : State,
    setComponentProperty component property value len s = Done s'
    /\ env s'
       = server_onMessage
           (Wire.word_bytes host (client_code PROPERTY_SET) ++ payload) (env s)
    /\ Blob.getBuffer (property_stream s') = payload
    /\ Z.of_nat (length payload) = 12 + len
    /\ Wire.uint32_of_bytes host (firstn 4 payload) = Crc.crc32 component
    /\ Wire.uint32_of_bytes host (firstn 4 (skipn 4 payload)) = Crc.crc32 property
    /\ Wire.int32_of_bytes host (firstn 4 (skipn 8 payload)) = len
    /\ skipn 12 payload = firstn (Z.to_nat len) value
    /\ (len = Z.of_nat (length value) -> skipn 12 payload = value).
Proof.
  intros Hi Hlen Hmax payload.
  pose proof (issue_effect (SetComponentProperty component property value len)
                s i Hi (conj Hlen Hmax)) as H.
  cbn [issue] in H. eexists. split; [exact H|].
  cbn [env property_stream stream_after]. unfold framed.
  cbn [table_tag table_payload]. fold payload.
  split; [reflexivity|]. split; [reflexivity|].
  unfold payload. repeat split.
  - rewrite !length_app, !WireFacts.word_bytes_length, length_firstn. lia.
  - now rewrite firstn_word, WireFacts.uint32_of_word_bytes, CrcFacts.crc32_uint32.
  - now rewrite skipn_word, firstn_word, WireFacts.uint32_of_word_bytes,
      CrcFacts.crc32_uint32.
  - rewrite skipn_two_words, firstn_word, WireFacts.int32_of_word_bytes.
    apply WireFacts.to_int32_small. unfold Wire.INT32_MAX in *. lia.
  - apply skipn_three_words.
  - intros ->. now rewrite skipn_three_words, Nat2Z.id, firstn_all.
Qed.

Section PropertyRuns.
Import Sample.

(** The scenario of the spec: "Transform", "Scale", the four bytes
    [3F 80 00 00] and length 4. *)
Lemma setComponentProperty_payload_witness :
  m_impl Sample.created <> None
  /\ 0 <= 4 <= Z.of_nat (length [x3f; x80; x00; x00])
  /\ 12 + 4 <= Wire.INT32_MAX
  /\ exists s' : State,
       setComponentProperty "Transform" "Scale" [x3f; x80; x00; x00] 4
         Sample.created = Done s'
       /\ Sample.inbox (env s')
          = [Wire.word_bytes Wire.LittleEndian 16
             ++ Wire.word_bytes Wire.LittleEndian (Crc.crc32 "Transform")
             ++ Wire.word_bytes Wire.LittleEndian (Crc.crc32 "Scale")
             ++ [x04; x00; x00; x00] ++ [x3f; x80; x00; x00]].
Proof.
  split; [discriminate|]. split; [cbn; lia|].
  split; [unfold Wire.INT32_MAX; lia|].
  destruct (setComponentProperty_payload "Transform" "Scale"
              [x3f; x80; x00; x00] 4 Sample.created _ eq_refl
              ltac:(cbn; lia) ltac:(unfold Wire.INT32_MAX; lia))
    as [s' [H [E _]]].
  exists s'. split; [exact H|]. rewrite E. reflexivity.
Defined.

End PropertyRuns.

(* ================================================================= *)
(** ** Unknown tags *)

(** C3.  A message that carries a 4-byte tag which is none of
    [ENTITY_POSITION], [ENTITY_SELECTED], [PROPERTY_LIST], [LOG_MESSAGE] is
    ignored: the call completes, and it leaves the whole state, the
    environment the listeners act on included, as it was. *)
Theorem unknown_tag_is_ignored
  {platform : Platform} {collaborators : Collaborators}
  (data : list byte) (s : State) :
  (4 <= length data)%nat ->
  tag_of data <> server_code ENTITY_POSITION ->
  tag_of data <> server_code ENTITY_SELECTED ->
  tag_of data <> server_code PROPERTY_LIST ->
  tag_of data <> server_code LOG_MESSAGE ->
  onMessage data s = Done s.
Proof.
  intros Hlen H1 H2 H3 H4. unfold onMessage.
  destruct (m_impl s) as [i|] eqn:Hi; [|reflexivity].
  rewrite Impl_onMessage_unrecognized; [|exact Hlen|].
  - cbn [bind]. destruct s; reflexivity.
  - intros [[] Hk]; contradiction.
Qed.

Section UnknownTagRuns.
Import Sample.

(** Three listeners are registered, the message carries tag 99: nobody is
    called, nothing is noted. *)
Lemma unknown_tag_is_ignored_witness :
  (4 <= length [x63; x00; x00; x00; x2a; x00; x00; x00])%nat
  /\ tag_of [x63; x00; x00; x00; x2a; x00; x00; x00] = 99
  /\ onMessage [x63; x00; x00; x00; x2a; x00; x00; x00] listening_state
     = Done listening_state.
Proof.
  split; [cbn; lia|]. split; [reflexivity|].
  apply unknown_tag_is_ignored; [cbn; lia|discriminate..].
Defined.

End UnknownTagRuns.

(* ================================================================= *)
(** ** The cached universe path *)

(** C4.  [loadUniverse(p)] and [saveUniverse(p)] leave [p] in the cached
    universe path and [newUniverse()] leaves the empty string there,
    whatever the server does with the message; so [getUniversePath()]
    returns ["foo.unv"] after [loadUniverse("foo.unv")] and [""] after a
    later [newUniverse()]. *)
Theorem universe_path_follows_commands
  {platform : Platform} {collaborators : Collaborators}
  (p : string) (s : State) (i : EditorClientImpl) :
  m_impl s = Some i -> strlen p + 1 <= Wire.INT32_MAX ->
  (s' <- loadUniverse p s ;; getUniversePath s') = Done p
  /\ (s' <- saveUniverse p s ;; getUniversePath s') = Done p
  /\ (s' <- newUniverse s ;; getUniversePath s') = Done EmptyString
  /\ (s1 <- loadUniverse "foo.unv" s ;; getUniversePath s1) = Done "foo.unv"%string
  /\ (s1 <- loadUniverse "foo.unv" s ;;
      s2 <- newUniverse s1 ;; getUniversePath s2) = Done EmptyString.
Proof.
  intros Hi Hp.
  assert (Hfoo : arguments_ok (LoadUniverse "foo.unv")).
  { unfold arguments_ok, strlen, Wire.INT32_MAX. cbn. lia. }
  pose proof (issue_effect (LoadUniverse p) s i Hi Hp) as HL.
  pose proof (issue_effect (SaveUniverse p) s i Hi Hp) as HS.
  pose proof (issue_effect NewUniverse s i Hi I) as HN.
  pose proof (issue_effect (LoadUniverse "foo.unv") s i Hi Hfoo) as HF.
  cbn [issue] in HL, HS, HN, HF.
  rewrite HL, HS, HN, HF. cbn [bind].
  repeat split; try reflexivity.
  match goal with
  | |- context [newUniverse ?s1] =>
      pose proof (issue_effect NewUniverse s1 _ eq_refl I) as HN'
  end.
  cbn [issue] in HN'. rewrite HN'. reflexivity.
Qed.

Section UniversePathRuns.
Import Sample.

Lemma universe_path_follows_commands_witness :
  m_impl created <> None
  /\ strlen "levels/a.unv" + 1 <= Wire.INT32_MAX
  /\ (s' <- loadUniverse "levels/a.unv" created ;; getUniversePath s')
     = Done "levels/a.unv"%string
  /\ (s' <- saveUniverse "levels/a.unv" created ;; getUniversePath s')
     = Done "levels/a.unv"%string.
Proof.
  assert (H : strlen "levels/a.unv" + 1 <= Wire.INT32_MAX)
    by (unfold strlen, Wire.INT32_MAX; cbn; lia).
  split; [discriminate|]. split; [exact H|].
  destruct (universe_path_follows_commands "levels/a.unv" created _ eq_refl H)
    as [HL [HS _]].
  split; [exact HL|exact HS].
Defined.

End UniversePathRuns.

(* ================================================================= *)
(** ** Entity positions *)

Lemma scenario_position_decodes (h : Wire.Endian) :
  let payload := Wire.word_bytes h 7 ++ Vec3_bytes h scenario_position in
  Wire.int32_of_bytes h (firstn 4 payload) = 7
  /\ float32_value (Wire.uint32_of_bytes h (firstn 4 (skipn 4 payload)))
     = Some (1 # 1)%Q
  /\ float32_value (Wire.uint32_of_bytes h (firstn 4 (skipn 8 payload)))
     = Some (2 # 1)%Q
  /\ float32_value (Wire.uint32_of_bytes h (firstn 4 (skipn 12 payload)))
     = Some (3 # 1)%Q.
Proof. destruct h; vm_compute; repeat split; reflexivity. Qed.

(** C5.  [setEntityPosition(e, v)] emits, behind the tag, sixteen bytes:
    the four bytes of [e], then the four bytes of each of [v.x], [v.y],
    [v.z], in this order; for entity 7 at (1.0, 2.0, 3.0) the first four
    bytes decode to 7 and the next twelve to 1.0, 2.0 and 3.0. *)
Theorem setEntityPosition_payload
  {platform : Platform} {collaborators : Collaborators}
  (entity : Z) (position : Vec3) (s : State) (i : EditorClientImpl) :
  m_impl s = Some i ->
  let payload :=
    Wire.word_bytes host entity ++ Wire.word_bytes host (x position)
    ++ Wire.word_bytes host (y position) ++ Wire.word_bytes host (z position) in
  setEntityPosition entity position s
  = Done (with_env s
            (server_onMessage
               (Wire.word_bytes host (client_code SET_POSITION) ++ payload)
               (env s)))
  /\ length payload = 16%nat
  /\ firstn 4 payload = Wire.word_bytes host entity
  /\ firstn 4 (skipn 4 payload) = Wire.word_bytes host (x position)
  /\ firstn 4 (skipn 8 payload) = Wire.word_bytes host (y position)
  /\ skipn 12 payload = Wire.word_bytes host (z position)
  /\ Wire.int32_of_bytes host (firstn 4 payload) = Wire.to_int32 entity
  /\ (let scenario := Wire.word_bytes host 7 ++ Vec3_bytes host scenario_position in
      Wire.int32_of_bytes host (firstn 4 scenario) = 7
      /\ float32_value (Wire.uint32_of_bytes host (firstn 4 (skipn 4 scenario)))
         = Some (1 # 1)%Q
      /\ float32_value (Wire.uint32_of_bytes host (firstn 4 (skipn 8 scenario)))
         = Some (2 # 1)%Q
      /\ float32_value (Wire.uint32_of_bytes host (firstn 4 (skipn 12 scenario)))
         = Some (3 # 1)%Q).
Proof.
  intros Hi payload.
  pose proof (issue_effect (SetEntityPosition entity position) s i Hi I) as H.
  cbn [issue] in H. unfold framed in H. cbn [table_tag table_payload] in H.
  fold payload in H.
  split.
  { rewrite H. unfold with_env. cbn. now rewrite Hi. }
  unfold payload.
  split; [now rewrite !length_app, !WireFacts.word_bytes_length|].
  split; [apply firstn_word|].
  split; [now rewrite skipn_word, firstn_word|].
  split; [now rewrite skipn_two_words, firstn_word|].
  split; [now rewrite <- (app_nil_r (Wire.word_bytes host (z position))),
            skipn_three_words, app_nil_r|].
  split; [now rewrite firstn_word, WireFacts.int32_of_word_bytes|].
  apply scenario_position_decodes.
Qed.

Section EntityPositionRuns.
Import Sample.

Lemma setEntityPosition_payload_witness :
  m_impl created <> None
  /\ Sample.sent (setEntityPosition 7 scenario_position created)
     = Some [[x0d; x00; x00; x00;  x07; x00; x00; x00;  x00; x00; x80; x3f;
              x00; x00; x00; x40;  x00; x00; x40; x40]].
Proof.
  split; [discriminate|].
  destruct (setEntityPosition_payload 7 scenario_position created _ eq_refl)
    as [H _].
  rewrite H. reflexivity.
Defined.

End EntityPositionRuns.

(* ================================================================= *)
(** ** Short messages *)

Section ShortMessageRuns.
Import Sample.

(** C6, as stated, fails.  With a listener registered, a two-byte message
    (shorter than the tag) and an entity-position message cut after the
    entity id are not rejected: the unchecked read runs past the bytes of
    the message. *)
Lemma short_message_not_rejected :
  (length [x02; x00] < 4)%nat
  /\ onMessage [x02; x00] listening_state = Undefined ReadOutsideObject
  /\ ~ rejected_without_effect [x02; x00] listening_state
  /\ onMessage [x01; x00; x00; x00;  x07; x00; x00; x00] listening_state
     = Undefined ReadOutsideObject
  /\ ~ rejected_without_effect [x01; x00; x00; x00;  x07; x00; x00; x00]
         listening_state.
Proof.
  split; [cbn; lia|]. split; [reflexivity|]. split.
  { intros [s' [H _]]. discriminate H. }
  split; [reflexivity|].
  intros [s' [H _]]. discriminate H.
Qed.

End ShortMessageRuns.

(** C6, amended.  [onMessage] checks no length.  A message shorter than the
    4-byte tag makes the first read run past it.  For a message with a
    recognized tag the outcome is the outcome of that event's reader: where
    the reader runs past the message so does the call, and where the reader
    returns an event the listeners of that event are invoked with it. *)
Theorem dispatch_trusts_message_length
  {platform : Platform} {collaborators : Collaborators}
  (data : list byte) (s : State) (i : EditorClientImpl) :
  m_impl s = Some i ->
  ((length data < 4)%nat -> onMessage data s = Undefined ReadOutsideObject)
  /\ (forall k : ServerMessageType,
        (4 <= length data)%nat -> tag_of data = server_code k ->
        onMessage data s
        = match read_event k (payload_view data) with
          | Done (msg, _) =>
              Done (with_env s (snd (invoke (delegates k i) msg (env s))))
          | Undefined f => Undefined f
          end).
Proof.
  intros Hi. split.
  - intros Hlen. unfold onMessage. rewrite Hi.
    now rewrite Impl_onMessage_short.
  - intros k Hlen Htag. now apply onMessage_recognized.
Qed.

Section TrustRuns.
Import Sample.

(** A complete entity-selected message reaches the three listeners; the
    same message cut by one byte does not complete. *)
Lemma dispatch_trusts_message_length_witness :
  m_impl listening_state <> None
  /\ heard (onMessage [x02; x00; x00; x00;  x2a; x00; x00; x00] listening_state)
     = Some [(1%nat, 42); (2%nat, 42); (3%nat, 42)]
  /\ onMessage [x02; x00; x00; x00;  x2a; x00; x00] listening_state
     = Undefined ReadOutsideObject.
Proof.
  split; [discriminate|].
  destruct (dispatch_trusts_message_length
              [x02; x00; x00; x00;  x2a; x00; x00; x00] listening_state _ eq_refl)
    as [_ H8].
  destruct (dispatch_trusts_message_length
              [x02; x00; x00; x00;  x2a; x00; x00] listening_state _ eq_refl)
    as [_ H7].
  split.
  - rewrite (H8 ENTITY_SELECTED ltac:(cbn; lia) eq_refl). reflexivity.
  - rewrite (H7 ENTITY_SELECTED ltac:(cbn; lia) eq_refl). reflexivity.
Defined.

End TrustRuns.

(* ================================================================= *)
(** ** Listener order *)

(** C7.  When a message with a recognized tag decodes to an event, every
    listener in the list of that event is called once, one after the other
    in the order of the list, on the one event object: a listener is handed
    the event as the listener before it left it.  For listeners [L1], [L2],
    [L3] bound in this order the call runs [L1], then [L2], then [L3]. *)
Theorem listeners_run_in_registration_order
  {platform : Platform} {collaborators : Collaborators}
  (k : ServerMessageType) (data : list byte) (msg : Event k) (rest : Blob.t)
  (s : State) (i : EditorClientImpl) :
  m_impl s = Some i ->
  (4 <= length data)%nat -> tag_of data = server_code k ->
  read_event k (payload_view data) = Done (msg, rest) ->
  onMessage data s
  = Done (with_env s (snd (fold_left call (delegates k i) (msg, env s))))
  /\ (forall L1 L2 L3 : Delegate (Event k),
        delegates k i
        = DelegateList_bind L3 (DelegateList_bind L2 (DelegateList_bind L1 [])) ->
        onMessage data s
        = Done (with_env s
                  (snd (let '(m1, e1) := L1 msg (env s) in
                        let '(m2, e2) := L2 m1 e1 in
                        L3 m2 e2)))).
Proof.
  intros Hi Hlen Htag Hread.
  pose proof (onMessage_recognized k data s i Hi Hlen Htag) as H.
  rewrite Hread in H.
  split.
  - rewrite H, invoke_fold. reflexivity.
  - intros L1 L2 L3 Hl. rewrite H, Hl. cbn.
    destruct (L1 msg (env s)) as [m1 e1]. destruct (L2 m1 e1) as [m2 e2].
    destruct (L3 m2 e2) as [m3 e3]. reflexivity.
Qed.

Section ListenerOrderRuns.
Import Sample.

Lemma listeners_run_in_registration_order_witness :
  m_impl listening_state <> None
  /\ (4 <= length [x02; x00; x00; x00;  x2a; x00; x00; x00])%nat
  /\ tag_of [x02; x00; x00; x00;  x2a; x00; x00; x00]
     = server_code ENTITY_SELECTED
  /\ heard (onMessage [x02; x00; x00; x00;  x2a; x00; x00; x00] listening_state)
     = Some [(1%nat, 42); (2%nat, 42); (3%nat, 42)].
Proof.
  split; [discriminate|]. split; [cbn; lia|]. split; [reflexivity|].
  destruct (listeners_run_in_registration_order ENTITY_SELECTED
              [x02; x00; x00; x00;  x2a; x00; x00; x00] _ _ listening_state _
              eq_refl ltac:(cbn; lia) eq_refl eq_refl) as [_ H].
  rewrite (H (noting 1) (noting 2) (noting 3) eq_refl). reflexivity.
Defined.

(** One event object for all listeners: the first listener overwrites the
    entity, the second and the third see what it wrote. *)
Example listeners_share_the_event :
  heard (s <- entitySelected_bind (retargeting 1 7) created ;;
         s <- entitySelected_bind (noting 2) s ;;
         s <- entitySelected_bind (noting 3) s ;;
         onMessage [x02; x00; x00; x00;  x2a; x00; x00; x00] s)
  = Some [(1%nat, 42); (2%nat, 7); (3%nat, 7)].
Proof. reflexivity. Qed.

(** Listeners of another event are not called. *)
Example listeners_of_other_events_stay_silent :
  heard (onMessage [x04; x00; x00; x00;  x02; x00; x00; x00;
                    x02; x00; x00; x00;  x6f; x6b] listening_state)
  = Some [].
Proof. reflexivity. Qed.

End ListenerOrderRuns.

(* ================================================================= *)
(** ** What a dispatch call leaves behind *)

Section RegistryRuns.
Import Sample.

(** C9, as stated, fails for a malformed message: on the empty message the
    call reads four bytes that are not there, and nothing is guaranteed
    about the state after it. *)
Lemma empty_message_is_undefined :
  onMessage [] created = Undefined ReadOutsideObject
  /\ ~ completes_with_registry_intact [] created.
Proof.
  split; [reflexivity|].
  intros [s' [H _]]. discriminate H.
Qed.

End RegistryRuns.

(** C9, amended.  A dispatch call that completes leaves the implementation
    object (listener lists, universe path, base path) and the static stream
    as they were; and a call fails to complete only on a created client, by
    a read outside the message, when the message is shorter than the tag or
    the reader of the event it is tagged as does not complete.  So every
    message with an unrecognized tag, and every recognized message whose
    reader finds its bytes, leaves the registry intact. *)
Theorem dispatch_leaves_registry_intact
  {platform : Platform} {collaborators : Collaborators}
  (data : list byte) (s : State) :
  (forall s' : State,
      onMessage data s = Done s' ->
      m_impl s' = m_impl s /\ property_stream s' = property_stream s)
  /\ (forall f : fault,
        onMessage data s = Undefined f ->
        m_impl s <> None
        /\ ((length data < 4)%nat
            \/ exists k : ServerMessageType,
                 tag_of data = server_code k
                 /\ read_event k (payload_view data) = Undefined f)).
Proof.
  split; [intros s'; apply onMessage_frame|].
  intros f H. unfold onMessage in H.
  destruct (m_impl s) as [i|] eqn:Hi; [|discriminate H].
  split; [discriminate|].
  destruct (Nat.lt_ge_cases (length data) 4) as [Hs|Hl]; [now left|right].
  assert (Hk : recognized (tag_of data)).
  { destruct (Z.eq_dec (tag_of data) (server_code ENTITY_POSITION));
      [now exists ENTITY_POSITION|].
    destruct (Z.eq_dec (tag_of data) (server_code ENTITY_SELECTED));
      [now exists ENTITY_SELECTED|].
    destruct (Z.eq_dec (tag_of data) (server_code PROPERTY_LIST));
      [now exists PROPERTY_LIST|].
    destruct (Z.eq_dec (tag_of data) (server_code LOG_MESSAGE));
      [now exists LOG_MESSAGE|].
    exfalso. rewrite Impl_onMessage_unrecognized in H; [discriminate H|exact Hl|].
    intros [[] Hk]; contradiction. }
  destruct Hk as [k Hk]. exists k. split; [exact Hk|].
  rewrite (Impl_onMessage_recognized k) in H by assumption.
  destruct (read_event k (payload_view data)) as [[msg rest]|f'];
    cbn [bind] in H; [discriminate H|].
  now injection H as ->.
Qed.

Section IntactRuns.
Import Sample.

Lemma dispatch_leaves_registry_intact_witness :
  onMessage [x02; x00; x00; x00;  x2a; x00; x00; x00] listening_state
  = Done (with_env listening_state
            {| inbox := [];
               journal := [(1%nat, 42); (2%nat, 42); (3%nat, 42)] |})
  /\ m_impl (with_env listening_state
               {| inbox := [];
                  journal := [(1%nat, 42); (2%nat, 42); (3%nat, 42)] |})
     = m_impl listening_state.
Proof.
  split; [reflexivity|].
  destruct (dispatch_leaves_registry_intact
              [x02; x00; x00; x00;  x2a; x00; x00; x00] listening_state)
    as [H _].
  exact (proj1 (H _ eq_refl)).
Defined.

End IntactRuns.

(* ================================================================= *)
(** ** Without an implementation object *)

(** C10.  After [destroy()] the implementation pointer is null; on a client
    whose pointer is null, [onMessage] completes and changes nothing and
    [destroy()] changes nothing, so [destroy()] twice is [destroy()]
    once. *)
Theorem destroyed_client_is_inert
  {platform : Platform} {collaborators : Collaborators}
  (s : State) (data : list byte) :
  m_impl (destroy s) = None
  /\ destroy (destroy s) = destroy s
  /\ onMessage data (destroy s) = Done (destroy s)
  /\ (m_impl s = None -> destroy s = s /\ onMessage data s = Done s).
Proof.
  assert (Hnull : forall t : State,
             m_impl t = None -> destroy t = t /\ onMessage data t = Done t).
  { intros t Ht. unfold destroy, onMessage. now rewrite Ht. }
  assert (Hd : m_impl (destroy s) = None).
  { unfold destroy. destruct (m_impl s) eqn:E; [reflexivity|exact E]. }
  split; [exact Hd|].
  split; [apply (Hnull _ Hd)|].
  split; [apply (Hnull _ Hd)|].
  apply Hnull.
Qed.

Section InertRuns.
Import Sample.

Lemma destroyed_client_is_inert_witness :
  m_impl initial = None
  /\ destroy initial = initial
  /\ onMessage [x02; x00; x00; x00;  x2a; x00; x00; x00] initial = Done initial
  /\ onMessage [x02; x00] (destroy listening_state)
     = Done (destroy listening_state).
Proof.
  split; [reflexivity|].
  destruct (destroyed_client_is_inert initial
              [x02; x00; x00; x00;  x2a; x00; x00; x00]) as [_ [_ [_ H]]].
  destruct (H eq_refl) as [H1 H2].
  split; [exact H1|]. split; [exact H2|].
  destruct (destroyed_client_is_inert listening_state [x02; x00])
    as [_ [_ [H3 _]]].
  exact H3.
Defined.

End InertRuns.

(* ================================================================= *)
(** ** The reused write buffer *)

Lemma write_all_same_buffer (chunks : list (list byte * Z)) (b1 b2 : Blob.t) :
  Blob.m_buffer b1 = Blob.m_buffer b2 ->
  written (write_all chunks b1) = written (write_all chunks b2).
Proof.
  revert b1 b2; induction chunks as [|[src size] chunks IH]; intros b1 b2 H.
  - cbn. unfold Blob.getBuffer. now rewrite H.
  - cbn [write_all]. unfold Blob.write.
    destruct ((0 <=? size) && (size <=? Z.of_nat (length src)));
      cbn [bind]; [|reflexivity].
    apply IH. cbn. now rewrite H.
Qed.

Lemma issue_all_keeps_impl
  {platform : Platform} {collaborators : Collaborators}
  (cs : list Command) (s s' : State) :
  issue_all cs s = Done s' -> m_impl s <> None -> m_impl s' <> None.
Proof.
  revert s; induction cs as [|c cs IH]; intros s H Hs.
  - cbn in H. now injection H as <-.
  - cbn [issue_all] in H. destruct (issue c s) as [s1|f] eqn:E;
      cbn [bind] in H; [|discriminate H].
    apply (IH s1 H). exact (issue_keeps_impl c s s1 E Hs).
Qed.

(** C8.  Writes into a cleared stream leave the bytes that the same writes
    leave in a newly constructed stream.  Hence two calls of
    [setComponentProperty] with the same arguments pass the same message to
    the server, whatever commands were issued between them. *)
Theorem cleared_stream_writes_like_new
  {platform : Platform} {collaborators : Collaborators} :
  (forall (chunks : list (list byte * Z)) (b : Blob.t),
      written (write_all chunks (Blob.clearBuffer b))
      = written (write_all chunks Blob.empty))
  /\ (forall (component property : string) (value : list byte) (len : Z)
             (between : list Command) (s0 s2 : State) (i : EditorClientImpl),
        m_impl s0 = Some i ->
        arguments_ok (SetComponentProperty component property value len) ->
        issue_all (SetComponentProperty component property value len :: between) s0
        = Done s2 ->
        exists (message : list byte) (s1 s3 : State),
          setComponentProperty component property value len s0 = Done s1
          /\ env s1 = server_onMessage message (env s0)
          /\ issue_all between s1 = Done s2
          /\ setComponentProperty component property value len s2 = Done s3
          /\ env s3 = server_onMessage message (env s2)).
Proof.
  split.
  - intros chunks b. now apply write_all_same_buffer.
  - intros component property value len between s0 s2 i Hi Hok Hrun.
    set (c := SetComponentProperty component property value len) in *.
    pose proof (issue_effect c s0 i Hi Hok) as H1.
    cbn [issue_all] in Hrun. rewrite H1 in Hrun. cbn [bind] in Hrun.
    assert (H2 : m_impl s2 <> None).
    { apply (issue_all_keeps_impl between _ s2 Hrun). cbn. discriminate. }
    destruct (m_impl s2) as [i2|] eqn:Hi2; [|contradiction].
    pose proof (issue_effect c s2 i2 Hi2 Hok) as H3.
    exists (framed c). eexists. eexists.
    split; [exact H1|]. split; [reflexivity|]. split; [exact Hrun|].
    split; [exact H3|]. reflexivity.
Qed.

Section ReusedBufferRuns.
Import Sample.

Lemma cleared_stream_writes_like_new_witness :
  m_impl created <> None
  /\ arguments_ok scale_property
  /\ issue_all (scale_property :: other_commands) created
     = Done after_other_commands
  /\ exists (message : list byte) (s1 s3 : State),
       issue scale_property created = Done s1
       /\ env s1 = server_onMessage message (env created)
       /\ issue_all other_commands s1 = Done after_other_commands
       /\ issue scale_property after_other_commands = Done s3
       /\ env s3 = server_onMessage message (env after_other_commands).
Proof.
  assert (Hok : arguments_ok scale_property)
    by (unfold arguments_ok, scale_property, Wire.INT32_MAX; cbn; lia).
  split; [discriminate|]. split; [exact Hok|]. split; [reflexivity|].
  destruct cleared_stream_writes_like_new as [_ H].
  exact (H "Transform"%string "Scale"%string [x3f; x80; x00; x00] 4
           other_commands created after_other_commands _ eq_refl Hok eq_refl).
Defined.

(** The same property set twice, with a longer one, a load and a pointer
    move in between: the first and the last message are the same. *)
Example same_property_same_message :
  sent (issue_all (scale_property :: other_commands ++ [scale_property]) created)
  = Some (map framed (scale_property :: other_commands ++ [scale_property])).
Proof. vm_compute. reflexivity. Qed.

End ReusedBufferRuns.

(* ################################################################# *)
(** * Part III: further properties of the translation unit *)

(* ================================================================= *)
(** ** What a completed emitter call did to the client *)

Section EmitterFacts.

Context {platform : Platform} {collaborators : Collaborators}.

Import Wire WireFacts.

Lemma with_env_same (s : State) : with_env s (env s) = s.
Proof. destruct s; reflexivity. Qed.

(** A [sendMessage] through [m_impl] completes only with an implementation
    object, and leaves it as it is. *)
Lemma impl_sendMessage_done (t : ClientMessageType) (d : option (list byte))
  (n : Z) (s0 s' : State) :
  impl_sendMessage t d n s0 = Done s' ->
  exists i, m_impl s0 = Some i /\ m_impl s' = Some i.
Proof.
  unfold impl_sendMessage, deref.
  destruct (m_impl s0) as [i|] eqn:Hi; cbn [bind]; [|discriminate].
  destruct (sendMessage _ _ _ _); cbn [bind]; [|discriminate].
  intros E; injection E as <-. exists i. split; [reflexivity|exact Hi].
Qed.

(** Whatever the arguments, an emitter call that completes found an
    implementation object and left in it what [impl_after] says. *)
Lemma issue_impl_after (c : Command) (s s' : State) :
  issue c s = Done s' ->
  exists i, m_impl s = Some i /\ m_impl s' = Some (impl_after c i).
Proof.
  intros H. destruct c; cbn [issue] in H; unfold_emitter_in H; cbn [impl_after].
  all: try (apply impl_sendMessage_done in H; exact H).
  all: try (unfold deref in H;
            destruct (m_impl s) as [i|] eqn:Hi; cbn [bind] in H; [|discriminate H];
            apply impl_sendMessage_done in H; destruct H as [i' [H1 H2]];
            cbn in H1; injection H1 as <-; exists i; split; [reflexivity|exact H2]).
  repeat step_in H. apply impl_sendMessage_done in H. exact H.
Qed.

Lemma impl_after_keeps (c : Command) (i : EditorClientImpl) :
  m_base_path (impl_after c i) = m_base_path i
  /\ forall k, delegates k (impl_after c i) = delegates k i.
Proof.
  destruct c; cbn [impl_after]; (split; [reflexivity|intros []; reflexivity]).
Qed.

(** The effect of a run of emitter calls whose arguments are in order. *)
Lemma issue_all_effect (cs : list Command) (s : State) (i : EditorClientImpl) :
  m_impl s = Some i -> Forall arguments_ok cs ->
  issue_all cs s
  = Done {| m_impl := Some (fold_left (fun i c => impl_after c i) cs i);
            property_stream :=
              fold_left (fun b c => stream_after c b) cs (property_stream s);
            env := transport cs (env s) |}.
Proof.
  revert s i; induction cs as [|c cs IH]; intros s i Hi Hok.
  - cbn. destruct s as [m b e]; cbn in *. now subst m.
  - inversion Hok as [|c' cs' Hc Hcs]; subst.
    cbn [issue_all]. rewrite (issue_effect c s i Hi Hc). cbn [bind].
    match goal with
    | |- issue_all cs ?s1 = _ => rewrite (IH s1 (impl_after c i) eq_refl Hcs)
    end.
    reflexivity.
Qed.

Lemma universe_path_fold (cs : list Command) (i : EditorClientImpl) :
  m_universe_path (fold_left (fun i c => impl_after c i) cs i)
  = path_after cs (m_universe_path i).
Proof.
  unfold path_after. revert i; induction cs as [|c cs IH]; intros i; cbn;
    [reflexivity|].
  rewrite IH. destruct c; reflexivity.
Qed.

Lemma impl_fold_keeps (cs : list Command) (i : EditorClientImpl) :
  m_base_path (fold_left (fun i c => impl_after c i) cs i) = m_base_path i
  /\ forall k, delegates k (fold_left (fun i c => impl_after c i) cs i)
               = delegates k i.
Proof.
  revert i; induction cs as [|c cs IH]; intros i; cbn; [split; reflexivity|].
  destruct (IH (impl_after c i)) as [Hb Hd].
  destruct (impl_after_keeps c i) as [Hb' Hd'].
  split; [now rewrite Hb|intros k; now rewrite Hd].
Qed.

End EmitterFacts.

(* ================================================================= *)
(** ** Creation *)

(** X1.  [create(base_path)] from any state, also one that already has a
    client with listeners, returns [true] and leaves a client whose base
    path is [base_path], whose universe path is empty and which has no
    listener: every later dispatch that completes changes nothing.  It
    touches neither the environment nor the static stream. *)
Theorem create_gives_a_blank_client
  {platform : Platform} {collaborators : Collaborators}
  (base_path : string) (s : State) (data : list byte) :
  let s' := fst (create base_path s) in
  snd (create base_path s) = true
  /\ getBasePath s' = Done base_path
  /\ getUniversePath s' = Done EmptyString
  /\ env s' = env s
  /\ property_stream s' = property_stream s
  /\ (forall s'' : State, onMessage data s' = Done s'' -> s'' = s').
Proof.
  cbn zeta. repeat split.
  intros s'' H.
  set (s' := fst (create base_path s)) in *.
  destruct (Nat.lt_ge_cases (length data) 4) as [Hs|Hl].
  { unfold onMessage in H. cbn in H. rewrite Impl_onMessage_short in H by exact Hs.
    discriminate H. }
  destruct (Z.eq_dec (tag_of data) (server_code ENTITY_POSITION)) as [E1|N1];
    [|destruct (Z.eq_dec (tag_of data) (server_code ENTITY_SELECTED)) as [E2|N2];
      [|destruct (Z.eq_dec (tag_of data) (server_code PROPERTY_LIST)) as [E3|N3];
        [|destruct (Z.eq_dec (tag_of data) (server_code LOG_MESSAGE)) as [E4|N4]]]].
  5: { unfold onMessage in H. cbn in H.
       rewrite Impl_onMessage_unrecognized in H;
         [cbn in H; now injection H as <-|exact Hl|].
       intros [[] Hk]; contradiction. }
  all: match goal with
       | E : tag_of _ = server_code ?k |- _ =>
           rewrite (onMessage_recognized k data s' _ eq_refl Hl E) in H;
           destruct (read_event k (payload_view data)) as [[msg rest]|f];
           [cbn in H; now injection H as <-|discriminate H]
       end.
Qed.

(* ================================================================= *)
(** ** The emitter without a client *)

(** X2.  While [m_impl] is null no emitter function, getter or accessor
    completes: each dereferences the null pointer ([setComponentProperty]
    may before that read outside its value).  Only [onMessage] and
    [destroy] test the pointer. *)
Theorem emitter_needs_a_client
  {platform : Platform} {collaborators : Collaborators}
  (s : State) :
  m_impl s = None ->
  (forall c : Command,
      match c with
      | SetComponentProperty _ _ _ _ => exists f, issue c s = Undefined f
      | _ => issue c s = Undefined NullDereference
      end)
  /\ getBasePath s = Undefined NullDereference
  /\ getUniversePath s = Undefined NullDereference
  /\ (forall k bind_k (d : Delegate (Event k)),
        accessor_bind k = Some bind_k ->
        bind_k d s = Undefined NullDereference).
Proof.
  intros Hn. split; [|split; [|split]].
  - intros c. destruct c; cbn [issue]; unfold_senders;
      try (now apply impl_sendMessage_no_impl);
      try (unfold loadUniverse, newUniverse, saveUniverse, deref;
           now rewrite Hn).
    unfold setComponentProperty. cbv zeta.
    repeat match goal with
    | |- exists f, bind ?w _ = _ =>
        destruct w as [?b|?f0]; cbn [bind]; cbv zeta;
        [|eexists; reflexivity]
    end.
    eexists. now apply impl_sendMessage_no_impl.
  - unfold getBasePath, deref. now rewrite Hn.
  - unfold getUniversePath, deref. now rewrite Hn.
  - intros k bind_k d Hk.
    destruct k; cbn in Hk; try discriminate Hk; injection Hk as <-;
      unfold entityPositionReceived_bind, entitySelected_bind,
        propertyListReceived_bind, deref; now rewrite Hn.
Qed.

Section NoClientRuns.
Import Sample.

Lemma emitter_needs_a_client_witness :
  m_impl initial = None
  /\ issue (MouseDown 1 2 0) initial = Undefined NullDereference
  /\ issue (LoadUniverse "a.unv") initial = Undefined NullDereference
  /\ getBasePath initial = Undefined NullDereference
  /\ entitySelected_bind (noting 1) (destroy listening_state)
     = Undefined NullDereference.
Proof.
  destruct (emitter_needs_a_client initial eq_refl) as [Hc [Hb _]].
  destruct (emitter_needs_a_client (destroy listening_state) eq_refl)
    as [_ [_ [_ Ha]]].
  split; [reflexivity|].
  split; [exact (Hc (MouseDown 1 2 0))|].
  split; [exact (Hc (LoadUniverse "a.unv"))|].
  split; [exact Hb|].
  exact (Ha ENTITY_SELECTED _ (noting 1) eq_refl).
Defined.

End NoClientRuns.

(* ================================================================= *)
(** ** Runs of commands *)

(** X3.  A run of emitter calls on a created client, each with arguments in
    order, completes and hands the server one message per call, in the
    order of the calls: nothing is held back, merged or reordered. *)
Theorem commands_reach_the_server_in_order
  {platform : Platform} {collaborators : Collaborators}
  (cs : list Command) (s : State) (i : EditorClientImpl) :
  m_impl s = Some i -> Forall arguments_ok cs ->
  exists s' : State,
    issue_all cs s = Done s'
    /\ env s' = fold_left (fun e c => server_onMessage (framed c) e) cs (env s)
    /\ (forall c e,
          fold_left (fun e c => server_onMessage (framed c) e) (cs ++ [c]) e
          = server_onMessage (framed c)
              (fold_left (fun e c => server_onMessage (framed c) e) cs e)).
Proof.
  intros Hi Hok. eexists. split; [exact (issue_all_effect cs s i Hi Hok)|].
  split; [reflexivity|].
  intros c e. now rewrite fold_left_app.
Qed.

Section OrderRuns.
Import Sample SampleSession.

Lemma commands_reach_the_server_in_order_witness :
  m_impl created <> None
  /\ Forall arguments_ok path_commands
  /\ sent (issue_all path_commands created) = Some (map framed path_commands).
Proof.
  assert (Hok : Forall arguments_ok path_commands).
  { unfold path_commands.
    repeat constructor; unfold strlen, Wire.INT32_MAX; cbn; lia. }
  split; [discriminate|]. split; [exact Hok|].
  destruct (commands_reach_the_server_in_order path_commands created _
              eq_refl Hok) as [s' [H [E _]]].
  rewrite H. cbn [sent]. rewrite E. reflexivity.
Defined.

End OrderRuns.

(** X4.  After a run of emitter calls [getUniversePath()] returns the path
    of the last [loadUniverse] or [saveUniverse] in the run, the empty
    string if a [newUniverse] came after it, and what it returned before if
    the run holds none of the three; no other command touches it. *)
Theorem universe_path_is_the_last_one_named
  {platform : Platform} {collaborators : Collaborators}
  (cs : list Command) (s : State) (i : EditorClientImpl) :
  m_impl s = Some i -> Forall arguments_ok cs ->
  (s' <- issue_all cs s ;; getUniversePath s')
  = Done (path_after cs (m_universe_path i))
  /\ (forall c p,
        path_after (cs ++ [c]) p
        = match c with
          | LoadUniverse q | SaveUniverse q => q
          | NewUniverse => EmptyString
          | _ => path_after cs p
          end).
Proof.
  intros Hi Hok. split.
  - rewrite (issue_all_effect cs s i Hi Hok). cbn [bind].
    unfold getUniversePath, deref. cbn. now rewrite universe_path_fold.
  - intros c p. unfold path_after. rewrite fold_left_app. cbn.
    destruct c; reflexivity.
Qed.

Section PathRuns.
Import Sample SampleSession.

Lemma universe_path_is_the_last_one_named_witness :
  m_impl created <> None
  /\ Forall arguments_ok path_commands
  /\ (s' <- issue_all path_commands created ;; getUniversePath s')
     = Done "b.unv"%string
  /\ (s' <- issue_all (path_commands ++ [NewUniverse; SetWireframe true]) created ;;
      getUniversePath s')
     = Done EmptyString.
Proof.
  assert (Hok : Forall arguments_ok path_commands).
  { unfold path_commands.
    repeat constructor; unfold strlen, Wire.INT32_MAX; cbn; lia. }
  assert (Hok' : Forall arguments_ok (path_commands ++ [NewUniverse; SetWireframe true])).
  { apply Forall_app. split; [exact Hok|repeat constructor]. }
  split; [discriminate|]. split; [exact Hok|].
  destruct (universe_path_is_the_last_one_named path_commands created _
              eq_refl Hok) as [H _].
  destruct (universe_path_is_the_last_one_named
              (path_commands ++ [NewUniverse; SetWireframe true]) created _
              eq_refl Hok') as [H' _].
  split; [rewrite H; reflexivity|rewrite H'; reflexivity].
Defined.

End PathRuns.

(* ================================================================= *)
(** ** What stays fixed during a session *)

Section SessionFacts.

Context {platform : Platform} {collaborators : Collaborators}.

Lemma bind_done (k : ServerMessageType)
  (bind_k : Delegate (Event k) -> State -> outcome State)
  (d : Delegate (Event k)) (s s' : State) :
  accessor_bind k = Some bind_k -> bind_k d s = Done s' ->
  exists i i',
    m_impl s = Some i /\ m_impl s' = Some i'
    /\ env s' = env s /\ property_stream s' = property_stream s
    /\ m_base_path i' = m_base_path i
    /\ m_universe_path i' = m_universe_path i
    /\ m_message_logged i' = m_message_logged i
    /\ delegates k i' = DelegateList_bind d (delegates k i)
    /\ (forall j, j <> k -> delegates j i' = delegates j i).
Proof.
  intros Hk H.
  destruct k; cbn in Hk; try discriminate Hk; injection Hk as <-;
    unfold entityPositionReceived_bind, entitySelected_bind,
      propertyListReceived_bind, deref in H;
    destruct (m_impl s) as [i|] eqn:Hi; cbn [bind] in H; try discriminate H;
    injection H as <-; exists i; eexists;
    (split; [reflexivity|]); (split; [reflexivity|]);
    cbn; repeat split; intros []; intros Hj; try reflexivity; contradiction.
Qed.

(** One operation that neither creates nor destroys keeps the client and its
    base path; one that only moves messages keeps the listener lists too. *)
Lemma perform_keeps (o : Operation) (s s' : State) (i : EditorClientImpl) :
  keeps_client o = true -> m_impl s = Some i -> perform o s = Done s' ->
  exists i', m_impl s' = Some i' /\ m_base_path i' = m_base_path i
             /\ m_message_logged i' = m_message_logged i
             /\ (is_traffic o = true -> forall k, delegates k i' = delegates k i).
Proof.
  intros Hk Hi H. destruct o; cbn in Hk; try discriminate Hk; cbn [perform] in H.
  - (* Receive *)
    apply onMessage_frame in H. destruct H as [H _]. rewrite Hi in H.
    exists i. repeat split; auto.
  - (* Issue *)
    apply issue_impl_after in H. destruct H as [i0 [H0 H1]].
    rewrite Hi in H0. injection H0 as <-.
    destruct (impl_after_keeps c i) as [Hb Hd].
    exists (impl_after c i). split; [exact H1|]. split; [exact Hb|].
    split; [exact (Hd LOG_MESSAGE)|]. intros _. exact Hd.
  - destruct (bind_done PROPERTY_LIST _ d s s' eq_refl H)
      as [i0 [i' [H0 [H1 [_ [_ [Hb [_ [Hl _]]]]]]]]].
    rewrite Hi in H0. injection H0 as <-. exists i'. repeat split; auto.
    discriminate.
  - destruct (bind_done ENTITY_SELECTED _ d s s' eq_refl H)
      as [i0 [i' [H0 [H1 [_ [_ [Hb [_ [Hl _]]]]]]]]].
    rewrite Hi in H0. injection H0 as <-. exists i'. repeat split; auto.
    discriminate.
  - destruct (bind_done ENTITY_POSITION _ d s s' eq_refl H)
      as [i0 [i' [H0 [H1 [_ [_ [Hb [_ [Hl _]]]]]]]]].
    rewrite Hi in H0. injection H0 as <-. exists i'. repeat split; auto.
    discriminate.
Qed.

(** Every operation keeps the list of log listeners empty. *)
Lemma perform_no_log_listener (o : Operation) (s s' : State) :
  no_log_listener s -> perform o s = Done s' -> no_log_listener s'.
Proof.
  intros Hs H. unfold no_log_listener in *.
  destruct o.
  - cbn in H. injection H as <-. reflexivity.
  - cbn in H. injection H as <-. unfold destroy.
    destruct (m_impl s) eqn:E; cbn; [exact I|]. now rewrite E.
  - cbn in H. apply onMessage_frame in H. destruct H as [H _]. now rewrite H.
  - destruct (m_impl s) as [i|] eqn:Hi.
    + destruct (perform_keeps (Issue c) s s' i eq_refl Hi H) as [i' [H1 [_ [Hl _]]]].
      rewrite H1. now rewrite Hl.
    + cbn in H. apply issue_impl_after in H. destruct H as [i [H0 _]].
      rewrite Hi in H0. discriminate H0.
  - destruct (bind_done PROPERTY_LIST _ d s s' eq_refl H)
      as [i [i' [H0 [H1 [_ [_ [_ [_ [Hl _]]]]]]]]].
    rewrite H0 in Hs. rewrite H1. now rewrite Hl.
  - destruct (bind_done ENTITY_SELECTED _ d s s' eq_refl H)
      as [i [i' [H0 [H1 [_ [_ [_ [_ [Hl _]]]]]]]]].
    rewrite H0 in Hs. rewrite H1. now rewrite Hl.
  - destruct (bind_done ENTITY_POSITION _ d s s' eq_refl H)
      as [i [i' [H0 [H1 [_ [_ [_ [_ [Hl _]]]]]]]]].
    rewrite H0 in Hs. rewrite H1. now rewrite Hl.
Qed.

Lemma perform_all_no_log_listener (os : list Operation) (s s' : State) :
  no_log_listener s -> perform_all os s = Done s' -> no_log_listener s'.
Proof.
  revert s; induction os as [|o os IH]; intros s Hs H.
  - cbn in H. now injection H as <-.
  - cbn [perform_all] in H. destruct (perform o s) as [s1|f] eqn:E;
      cbn [bind] in H; [|discriminate H].
    exact (IH s1 (perform_no_log_listener o s s1 Hs E) H).
Qed.

End SessionFacts.

(** X5.  The base path is fixed when the client is created: no received
    message, command or listener registration changes what [getBasePath()]
    returns.  And commands and received messages never add, remove or
    reorder a listener. *)
Theorem base_path_and_listeners_are_stable
  {platform : Platform} {collaborators : Collaborators}
  (os : list Operation) (s s' : State) (i : EditorClientImpl) :
  m_impl s = Some i -> perform_all os s = Done s' ->
  forallb keeps_client os = true ->
  getBasePath s' = Done (m_base_path i)
  /\ (forallb is_traffic os = true ->
      exists i', m_impl s' = Some i' /\ forall k, delegates k i' = delegates k i).
Proof.
  revert s i; induction os as [|o os IH]; intros s i Hi H Hk.
  - cbn in H. injection H as <-. unfold getBasePath, deref. rewrite Hi.
    split; [reflexivity|]. intros _. now exists i.
  - cbn [perform_all] in H. destruct (perform o s) as [s1|f] eqn:E;
      cbn [bind] in H; [|discriminate H].
    cbn in Hk. apply andb_true_iff in Hk. destruct Hk as [Ho Hos].
    destruct (perform_keeps o s s1 i Ho Hi E) as [i1 [H1 [Hb [_ Hd]]]].
    destruct (IH s1 i1 H1 H Hos) as [IHb IHd].
    split; [now rewrite IHb, Hb|].
    intros Ht. cbn in Ht. apply andb_true_iff in Ht. destruct Ht as [Hto Htos].
    destruct (IHd Htos) as [i' [Hi' Hd']].
    exists i'. split; [exact Hi'|]. intros k. now rewrite Hd', (Hd Hto).
Qed.

Section StableRuns.
Import Sample SampleSession.

Lemma base_path_and_listeners_are_stable_witness :
  m_impl listening_state <> None
  /\ perform_all busy listening_state = Done after_busy
  /\ forallb keeps_client busy = true
  /\ getBasePath after_busy = Done "data"%string
  /\ perform_all traffic listening_state = Done after_traffic
  /\ forallb is_traffic traffic = true
  /\ heard (onMessage selected_42 after_traffic)
     = Some [(1%nat, 42); (2%nat, 42); (3%nat, 42);
             (1%nat, 42); (2%nat, 42); (3%nat, 42)].
Proof.
  assert (Hbusy : perform_all busy listening_state = Done after_busy)
    by reflexivity.
  assert (Htraffic : perform_all traffic listening_state = Done after_traffic)
    by reflexivity.
  split; [discriminate|]. split; [exact Hbusy|]. split; [reflexivity|].
  destruct (base_path_and_listeners_are_stable busy listening_state after_busy
              _ eq_refl Hbusy eq_refl) as [Hb _].
  split; [exact Hb|]. split; [exact Htraffic|]. split; [reflexivity|].
  destruct (base_path_and_listeners_are_stable traffic listening_state
              after_traffic _ eq_refl Htraffic eq_refl) as [_ Hd].
  destruct (Hd eq_refl) as [i' [Hi' Hk]].
  rewrite (onMessage_recognized ENTITY_SELECTED selected_42 after_traffic i' Hi'
             ltac:(cbn; lia) eq_refl).
  rewrite (Hk ENTITY_SELECTED). reflexivity.
Defined.

End StableRuns.

(* ================================================================= *)
(** ** Listeners bound through the accessors *)

(** X6.  A listener bound through the accessor of one event is not reached
    by a message of another event: binding it leaves what such a message
    does to the environment as it was. *)
Theorem listener_hears_only_its_event
  {platform : Platform} {collaborators : Collaborators}
  (j k : ServerMessageType)
  (bind_j : Delegate (Event j) -> State -> outcome State)
  (d : Delegate (Event j)) (data : list byte) (s : State)
  (i : EditorClientImpl) :
  m_impl s = Some i -> accessor_bind j = Some bind_j ->
  (4 <= length data)%nat -> tag_of data = server_code k -> j <> k ->
  env_of (s1 <- bind_j d s ;; onMessage data s1) = env_of (onMessage data s).
Proof.
  intros Hi Hj Hlen Htag Hjk.
  destruct (bind_j d s) as [s1|f] eqn:E.
  - destruct (bind_done j bind_j d s s1 Hj E)
      as [i0 [i1 [H0 [H1 [He [_ [_ [_ [_ [_ Hd]]]]]]]]]].
    cbn [bind].
    rewrite (onMessage_recognized k data s1 i1 H1 Hlen Htag).
    rewrite (onMessage_recognized k data s i Hi Hlen Htag).
    rewrite Hi in H0. injection H0 as <-.
    rewrite (Hd k (fun E' => Hjk (eq_sym E'))), He.
    destruct (read_event k (payload_view data)) as [[msg rest]|f]; reflexivity.
  - exfalso. destruct j; cbn in Hj; try discriminate Hj; injection Hj as <-;
      unfold entityPositionReceived_bind, entitySelected_bind,
        propertyListReceived_bind, deref in E; rewrite Hi in E;
      discriminate E.
Qed.

Section IsolationRuns.
Import Sample SampleSession.

Lemma listener_hears_only_its_event_witness :
  m_impl listening_state <> None
  /\ (4 <= length selected_42)%nat
  /\ tag_of selected_42 = server_code ENTITY_SELECTED
  /\ env_of (s1 <- entityPositionReceived_bind (noting_position 9) listening_state ;;
             onMessage selected_42 s1)
     = Done {| inbox := [];
               journal := [(1%nat, 42); (2%nat, 42); (3%nat, 42)] |}.
Proof.
  split; [discriminate|]. split; [cbn; lia|]. split; [reflexivity|].
  rewrite (listener_hears_only_its_event ENTITY_POSITION ENTITY_SELECTED _
             (noting_position 9) selected_42 listening_state _
             eq_refl eq_refl ltac:(cbn; lia) eq_refl ltac:(discriminate)).
  reflexivity.
Defined.

End IsolationRuns.

(** X7.  A listener bound through an accessor runs after the listeners
    already in that list: a message of its event first runs the old
    listeners exactly as before the binding, then hands the new listener
    the event and the environment they left. *)
Theorem bound_listener_runs_last
  {platform : Platform} {collaborators : Collaborators}
  (k : ServerMessageType)
  (bind_k : Delegate (Event k) -> State -> outcome State)
  (d : Delegate (Event k)) (data : list byte) (msg : Event k) (rest : Blob.t)
  (s : State) (i : EditorClientImpl) :
  m_impl s = Some i -> accessor_bind k = Some bind_k ->
  (4 <= length data)%nat -> tag_of data = server_code k ->
  read_event k (payload_view data) = Done (msg, rest) ->
  env_of (onMessage data s) = Done (snd (invoke (delegates k i) msg (env s)))
  /\ env_of (s1 <- bind_k d s ;; onMessage data s1)
     = Done (snd (d (fst (invoke (delegates k i) msg (env s)))
                    (snd (invoke (delegates k i) msg (env s))))).
Proof.
  intros Hi Hk Hlen Htag Hread. split.
  - rewrite (onMessage_recognized k data s i Hi Hlen Htag), Hread. reflexivity.
  - destruct (bind_k d s) as [s1|f] eqn:E.
    + destruct (bind_done k bind_k d s s1 Hk E)
        as [i0 [i1 [H0 [H1 [He [_ [_ [_ [_ [Hd _]]]]]]]]]].
      cbn [bind].
      rewrite (onMessage_recognized k data s1 i1 H1 Hlen Htag), Hread.
      rewrite Hi in H0. injection H0 as <-.
      cbn [env_of bind with_env env]. rewrite Hd, He, invoke_bind. reflexivity.
    + exfalso. destruct k; cbn in Hk; try discriminate Hk; injection Hk as <-;
        unfold entityPositionReceived_bind, entitySelected_bind,
          propertyListReceived_bind, deref in E; rewrite Hi in E;
        discriminate E.
Qed.

Section BoundLastRuns.
Import Sample SampleSession.

Lemma bound_listener_runs_last_witness :
  m_impl listening_state <> None
  /\ (4 <= length selected_42)%nat
  /\ tag_of selected_42 = server_code ENTITY_SELECTED
  /\ env_of (s1 <- entitySelected_bind (noting 4) listening_state ;;
             onMessage selected_42 s1)
     = Done {| inbox := [];
               journal := [(1%nat, 42); (2%nat, 42); (3%nat, 42); (4%nat, 42)] |}.
Proof.
  split; [discriminate|]. split; [cbn; lia|]. split; [reflexivity|].
  destruct (bound_listener_runs_last ENTITY_SELECTED _ (noting 4) selected_42
              _ _ listening_state _ eq_refl eq_refl ltac:(cbn; lia) eq_refl
              eq_refl) as [_ H].
  rewrite H. reflexivity.
Defined.

End BoundLastRuns.

(* ================================================================= *)
(** ** Log messages *)

(** X8.  The translation unit gives no way to bind a log listener.  So
    after any sequence of its operations that started without a client (or
    with a client without log listeners) a log message is read and then
    dropped: whenever its reader returns, the call completes and leaves the
    state, environment included, as it was. *)
Theorem log_messages_reach_nobody
  {platform : Platform} {collaborators : Collaborators}
  (os : list Operation) (s s' : State) (data : list byte) (msg : LogEvent)
  (rest : Blob.t) :
  no_log_listener s -> perform_all os s = Done s' ->
  (4 <= length data)%nat -> tag_of data = server_code LOG_MESSAGE ->
  read_event LOG_MESSAGE (payload_view data) = Done (msg, rest) ->
  accessor_bind LOG_MESSAGE = None
  /\ no_log_listener s'
  /\ onMessage data s' = Done s'.
Proof.
  intros Hs H Hlen Htag Hread.
  pose proof (perform_all_no_log_listener os s s' Hs H) as Hn.
  split; [reflexivity|]. split; [exact Hn|].
  unfold no_log_listener in Hn.
  destruct (m_impl s') as [i'|] eqn:Hi'.
  - rewrite (onMessage_recognized LOG_MESSAGE data s' i' Hi' Hlen Htag), Hread.
    cbn [delegates]. rewrite Hn. cbn. now rewrite with_env_same.
  - unfold onMessage. now rewrite Hi'.
Qed.

Section LogRuns.
Import Sample SampleSession.

Lemma log_messages_reach_nobody_witness :
  no_log_listener initial
  /\ perform_all session initial = Done after_session
  /\ (4 <= length log_ok)%nat
  /\ tag_of log_ok = server_code LOG_MESSAGE
  /\ read_event LOG_MESSAGE (payload_view log_ok)
     = Done ({| severity := 2; text := [x6f; x6b] |},
             {| Blob.m_buffer := []; Blob.m_capacity := 0;
                Blob.m_data := log_ok; Blob.m_pos := 14 |})
  /\ onMessage log_ok after_session = Done after_session
  /\ heard (Done after_session) = Some [(1%nat, 42); (2%nat, 7)].
Proof.
  assert (Hrun : perform_all session initial = Done after_session)
    by reflexivity.
  split; [exact I|]. split; [exact Hrun|]. split; [cbn; lia|].
  split; [reflexivity|]. split; [reflexivity|].
  destruct (log_messages_reach_nobody session initial after_session log_ok
              _ _ I Hrun ltac:(cbn; lia) eq_refl eq_refl) as [_ [_ H]].
  split; [exact H|reflexivity].
Defined.

End LogRuns.

(* ================================================================= *)
(** ** Reading back what was sent *)

Section ReadBack.

Import Wire WireFacts.

(** A read-only view of [data] with its cursor at [pos]. *)
Lemma create_is_view (data : list byte) :
  Blob.create data Blob.empty
  = {| Blob.m_buffer := []; Blob.m_capacity := 0;
       Blob.m_data := data; Blob.m_pos := 0 |}.
Proof. reflexivity. Qed.

Lemma read_view (pre w post : list byte) (pos : nat) :
  pos = length pre ->
  Blob.read (length w)
    {| Blob.m_buffer := []; Blob.m_capacity := 0;
       Blob.m_data := pre ++ w ++ post; Blob.m_pos := pos |}
  = Done (w, {| Blob.m_buffer := []; Blob.m_capacity := 0;
                Blob.m_data := pre ++ w ++ post;
                Blob.m_pos := (pos + length w)%nat |}).
Proof.
  intros ->. unfold Blob.read. cbn.
  replace (length pre + length w <=? length (pre ++ w ++ post))%nat with true.
  2: { symmetry. apply Nat.leb_le. rewrite !length_app. lia. }
  f_equal. f_equal.
  rewrite skipn_app, skipn_all, Nat.sub_diag, skipn_O, app_nil_l.
  rewrite firstn_app, Nat.sub_diag, firstn_O, app_nil_r. apply firstn_all.
Qed.

Lemma read_uint32_view (h : Endian) (pre post : list byte) (w : Z) (pos : nat) :
  pos = length pre ->
  read_uint32 h
    {| Blob.m_buffer := []; Blob.m_capacity := 0;
       Blob.m_data := pre ++ word_bytes h w ++ post; Blob.m_pos := pos |}
  = Done (to_uint32 w,
          {| Blob.m_buffer := []; Blob.m_capacity := 0;
             Blob.m_data := pre ++ word_bytes h w ++ post;
             Blob.m_pos := (pos + 4)%nat |}).
Proof.
  intros Hp. unfold read_uint32.
  rewrite <- (word_bytes_length h w) at 1.
  rewrite (read_view pre (word_bytes h w) post pos Hp). cbn [bind].
  now rewrite uint32_of_word_bytes, word_bytes_length.
Qed.

Lemma read_words_view (h : Endian) (ws : list Z) (pre post : list byte)
  (pos : nat) :
  pos = length pre ->
  read_words h (length ws)
    {| Blob.m_buffer := []; Blob.m_capacity := 0;
       Blob.m_data := pre ++ concat (map (word_bytes h) ws) ++ post;
       Blob.m_pos := pos |}
  = Done (map to_uint32 ws,
          {| Blob.m_buffer := []; Blob.m_capacity := 0;
             Blob.m_data := pre ++ concat (map (word_bytes h) ws) ++ post;
             Blob.m_pos := (pos + 4 * length ws)%nat |}).
Proof.
  revert pre pos; induction ws as [|w ws IH]; intros pre pos Hp.
  - cbn. now rewrite Nat.add_0_r.
  - cbn [length read_words map concat]. rewrite <- !app_assoc.
    rewrite (read_uint32_view h pre _ w pos Hp). cbn [bind].
    assert (E : pre ++ word_bytes h w ++ concat (map (word_bytes h) ws) ++ post
                = (pre ++ word_bytes h w) ++ concat (map (word_bytes h) ws) ++ post)
      by now rewrite <- app_assoc.
    rewrite E, (IH (pre ++ word_bytes h w) (pos + 4)%nat).
    + cbn [bind]. do 3 f_equal. lia.
    + rewrite length_app, word_bytes_length. lia.
Qed.

Lemma until_zero_terminated (bs rest : list byte) :
  ~ In x00 bs -> until_zero (bs ++ x00 :: rest) = bs.
Proof.
  induction bs as [|b bs IH]; intros Hn; [reflexivity|].
  cbn. destruct (Byte.eqb b x00) eqn:E.
  - exfalso. apply Hn. left. symmetry. now apply Byte.byte_dec_bl.
  - f_equal. apply IH. intros Hin. apply Hn. now right.
Qed.

End ReadBack.

Lemma payload_is_argument_words {platform : Platform} (c : Command) (ws : list Z) :
  argument_words c = Some ws ->
  arguments_ok c
  /\ table_payload c = concat (map (Wire.word_bytes host) ws).
Proof.
  intros H. destruct c; cbn in H; try discriminate H; injection H as <-;
    (split; [exact I|]); cbn; now rewrite ?app_nil_r.
Qed.

(** X9.  What a fixed-size emitter function sends can be read back: a
    receiver that views the message as [onMessage] does reads the command's
    tag, then the arguments of the call one 4-byte word each, in the order
    of the call, and nothing is left over.  [setWireframe] sends 1 for
    [true] and 0 for [false]. *)
Theorem fixed_size_commands_round_trip
  {platform : Platform} {collaborators : Collaborators}
  (c : Command) (ws : list Z) (s : State) (i : EditorClientImpl) :
  m_impl s = Some i -> argument_words c = Some ws ->
  exists (message : list byte) (s' : State),
    issue c s = Done s'
    /\ env s' = server_onMessage message (env s)
    /\ length message = (4 + 4 * length ws)%nat
    /\ decode_words host (length ws) message
       = Done (Wire.to_int32 (client_code (table_tag c)),
               map Wire.to_uint32 ws, 0%nat).
Proof.
  intros Hi Hw. destruct (payload_is_argument_words c ws Hw) as [Hok Hp].
  exists (framed c). eexists. split; [exact (issue_effect c s i Hi Hok)|].
  split; [reflexivity|].
  assert (Hlen : length (framed c) = (4 + 4 * length ws)%nat).
  { unfold framed. rewrite Hp, length_app, WireFacts.word_bytes_length.
    f_equal. clear. induction ws as [|w ws IH]; [reflexivity|].
    cbn [map concat length]. rewrite length_app, WireFacts.word_bytes_length, IH.
    lia. }
  split; [exact Hlen|].
  assert (Hf : framed c
               = Wire.word_bytes host (client_code (table_tag c))
                 ++ concat (map (Wire.word_bytes host) ws) ++ [])
    by (unfold framed; now rewrite Hp, app_nil_r).
  pose proof (read_words_view host ws
                (Wire.word_bytes host (client_code (table_tag c))) [] 4
                (eq_sym (WireFacts.word_bytes_length _ _))) as R.
  rewrite <- Hf in R.
  unfold decode_words. rewrite read_tag by lia. cbn [bind].
  unfold payload_view. rewrite R. cbn [bind].
  unfold remaining. cbn [Blob.m_data Blob.m_pos].
  rewrite Hlen, Nat.sub_diag.
  unfold tag_of, framed. rewrite firstn_word, WireFacts.int32_of_word_bytes.
  reflexivity.
Qed.

Section RoundTripRuns.
Import Sample SampleSession.

Lemma fixed_size_commands_round_trip_witness :
  m_impl created <> None
  /\ argument_words (MouseMove 3 (-1) 5 0 2) = Some [3; -1; 5; 0; 2]
  /\ (exists (message : list byte) (s' : State),
        issue (MouseMove 3 (-1) 5 0 2) created = Done s'
        /\ env s' = server_onMessage message (env created)
        /\ length message = 24%nat
        /\ decode_words host 5 message
           = Done (7, [3; 4294967295; 5; 0; 2], 0%nat))
  /\ (exists (message : list byte) (s' : State),
        issue (SetWireframe true) created = Done s'
        /\ env s' = server_onMessage message (env created)
        /\ length message = 8%nat
        /\ decode_words host 1 message = Done (9, [1], 0%nat)).
Proof.
  split; [discriminate|]. split; [reflexivity|]. split.
  - exact (fixed_size_commands_round_trip (MouseMove 3 (-1) 5 0 2) _ created _
             eq_refl eq_refl).
  - exact (fixed_size_commands_round_trip (SetWireframe true) _ created _
             eq_refl eq_refl).
Defined.

End RoundTripRuns.

(** X10.  What [loadUniverse] and [saveUniverse] send can be read back: the
    message is the tag, the bytes of the path and one zero byte, and a
    receiver that takes the bytes behind the tag up to the first zero byte
    has the path, for every path that is a C string (holds no zero byte)
    whose length fits the [int32_t] size. *)
Theorem path_commands_round_trip
  {platform : Platform} {collaborators : Collaborators}
  (path : string) (c : Command) (s : State) (i : EditorClientImpl) :
  m_impl s = Some i -> strlen path + 1 <= Wire.INT32_MAX ->
  ~ In x00 (list_byte_of_string path) ->
  c = LoadUniverse path \/ c = SaveUniverse path ->
  exists (message : list byte) (s' : State),
    issue c s = Done s'
    /\ env s' = server_onMessage message (env s)
    /\ tag_of message = Wire.to_int32 (client_code (table_tag c))
    /\ Z.of_nat (length message) = 5 + strlen path
    /\ decode_path message = path.
Proof.
  intros Hi Hlen Hz Hc.
  assert (Hok : arguments_ok c) by (destruct Hc; subst c; exact Hlen).
  assert (Hp : table_payload c = list_byte_of_string path ++ [x00])
    by (destruct Hc; subst c; reflexivity).
  exists (framed c). eexists. split; [exact (issue_effect c s i Hi Hok)|].
  split; [reflexivity|]. unfold framed. rewrite Hp.
  split; [unfold tag_of; now rewrite firstn_word, WireFacts.int32_of_word_bytes|].
  split.
  - rewrite !length_app, WireFacts.word_bytes_length, list_byte_of_string_length.
    unfold strlen. cbn [length]. lia.
  - unfold decode_path. rewrite skipn_word.
    rewrite (until_zero_terminated _ [] Hz).
    apply string_of_list_byte_of_string.
Qed.

Section PathRoundTripRuns.
Import Sample SampleSession.

Lemma path_commands_round_trip_witness :
  m_impl created <> None
  /\ strlen "levels/a.unv" + 1 <= Wire.INT32_MAX
  /\ ~ In x00 (list_byte_of_string "levels/a.unv")
  /\ exists (message : list byte) (s' : State),
       issue (SaveUniverse "levels/a.unv") created = Done s'
       /\ env s' = server_onMessage message (env created)
       /\ tag_of message = 14
       /\ Z.of_nat (length message) = 17
       /\ decode_path message = "levels/a.unv"%string.
Proof.
  assert (Hlen : strlen "levels/a.unv" + 1 <= Wire.INT32_MAX)
    by (unfold strlen, Wire.INT32_MAX; cbn; lia).
  assert (Hz : ~ In x00 (list_byte_of_string "levels/a.unv")).
  { cbn. intros H. repeat (destruct H as [H|H]; [discriminate H|]). exact H. }
  split; [discriminate|]. split; [exact Hlen|]. split; [exact Hz|].
  exact (path_commands_round_trip "levels/a.unv" (SaveUniverse "levels/a.unv")
           created _ eq_refl Hlen Hz (or_intror eq_refl)).
Defined.

End PathRoundTripRuns.

(* ================================================================= *)
(** ** The value of a property, at its bounds *)


Section LengthRuns.
Import Sample SampleSession.


End LengthRuns.
